(** * Mobile-Agent launchers: [agent-noshell] and [agent-noshrc]

    A shallow embedding of the two C launchers of the repository
    ([src/agent-noshell.c] and [src/agent-noshrc.c]) and the proofs of the
    properties their specification states.

    Both programs are a straight line of libc calls around one copy loop.
    The embedding keeps that shape: a small state-and-fault monad carries the
    part of the process a launcher can touch (the [environ] table, [errno],
    the two output streams and the log of process-replacement calls), the
    arrays of [char *] are lists of slots written by index with the bounds
    check made explicit, and [main] is transcribed statement by statement.

    C [int]s are integers of [Z]: the counters of agent-noshell stay below
    1020, those of agent-noshrc below [argc + 2], and [argc] is the length of
    an argument list the kernel has accepted, far below [INT_MAX]. Strings
    are C strings; [strcmp(a, b) == 0] is equality.

    One line of agent-noshrc is not C: line 60 assigns to an array. What it
    leaves behind is a parameter of that program ([array_assignment]), and
    what is proved about agent-noshrc is proved for both of its values,
    except where a statement says which one it needs. *)

From Stdlib Require Import ZArith String Ascii List Bool Lia DecimalString.
From stdpp Require Import base tactics option list strings.
Import ListNotations.

Local Open Scope string_scope.
Local Open Scope list_scope.
Local Open Scope Z_scope.

(** ** The C runtime as the launchers see it *)

Module C.

(** A slot of an array of [char *]: not yet written, [NULL], or a pointer to
    a NUL-terminated string. *)
Inductive cptr : Type :=
| Undef
| Null
| Str (s : string).

(** What can go wrong below the level of the C source. *)
Inductive fault : Type :=
| OutOfBounds (index : Z)      (* an array written or read outside its extent *)
| UndefinedRead                (* a slot read before it was written *)
| OutOfFuel.                   (* a loop ran past its iteration budget *)

(** One call of [execv]/[execve]: the path, and the two NULL-terminated
    vectors as the kernel reads them, sentinel included. *)
Record exec_call : Type := ExecCall {
  ex_path : string;
  ex_argv : list cptr;
  ex_envp : list cptr
}.

(** The operating system under the launcher: whether a process-replacement
    call succeeds ([None]: the image is replaced and the call never returns)
    or fails ([Some e]: it returns -1 with [errno = e]), and the text
    [strerror] gives for an error number. *)
Record os : Type := OS {
  os_exec : exec_call -> option Z;
  os_strerror : Z -> string
}.

(** The mutable state of the process. The streams are logs of the strings
    written, one element per [printf]/[fprintf]/[perror] call. *)
Record world : Type := World {
  w_environ : list string;
  w_errno : Z;
  w_stdout : list string;
  w_stderr : list string;
  w_execs : list exec_call
}.

Inductive stop : Type :=
| Replaced                     (* exec succeeded: this image is gone *)
| Faulted (f : fault).

Inductive result (A : Type) : Type :=
| Done (a : A) (w : world)
| Halt (s : stop) (w : world).
Arguments Done {A} a w.
Arguments Halt {A} s w.

Definition M (A : Type) : Type := world -> result A.

Definition ret {A} (a : A) : M A := fun w => Done a w.

Definition bind {A B} (m : M A) (k : A -> M B) : M B :=
  fun w => match m w with
           | Done a w' => k a w'
           | Halt s w' => Halt s w'
           end.

Definition raise {A} (f : fault) : M A := fun w => Halt (Faulted f) w.

End C.

Import C.

Declare Scope cmd_scope.
Delimit Scope cmd_scope with cmd.
Notation "x <- c ;; k" := (bind c (fun x => k))
  (at level 100, c at next level, right associativity) : cmd_scope.
Notation "c ;; k" := (bind c (fun _ => k))
  (at level 100, right associativity) : cmd_scope.
Local Open Scope cmd_scope.

Module Libc.

Definition nl : string := String "010" EmptyString.

(** [%d] of [printf]. *)
Definition fmt_d (z : Z) : string := NilZero.string_of_int (Z.to_int z).

Definition printf (s : string) : M unit :=
  fun w => Done tt (World (w_environ w) (w_errno w) (w_stdout w ++ [s])
                          (w_stderr w) (w_execs w)).

Definition fprintf_stderr (s : string) : M unit :=
  fun w => Done tt (World (w_environ w) (w_errno w) (w_stdout w)
                          (w_stderr w ++ [s]) (w_execs w)).

(** [perror(s)]: [s], a colon and a blank, the text of [errno], a newline. *)
Definition perror (sys : os) (s : string) : M unit :=
  fun w => fprintf_stderr (s +:+ ": " +:+ os_strerror sys (w_errno w) +:+ nl) w.

(** *** The environment

    [environ] is a table of [NAME=VALUE] strings. [getenv] returns the value
    of the first entry whose name matches; an entry without [=] never
    matches. *)

Fixpoint strip_prefix (p s : string) : option string :=
  match p with
  | EmptyString => Some s
  | String a p' =>
      match s with
      | EmptyString => None
      | String b s' => if Ascii.eqb a b then strip_prefix p' s' else None
      end
  end.

Fixpoint lookup_env (name : string) (environ : list string) : option string :=
  match environ with
  | [] => None
  | e :: rest =>
      match strip_prefix (name +:+ "=") e with
      | Some v => Some v
      | None => lookup_env name rest
      end
  end.

Definition getenv (name : string) : M (option string) :=
  fun w => Done (lookup_env name (w_environ w)) w.

(** [setenv(name, value, overwrite)]: replace the entry of [name] in place
    when there is one (and [overwrite] is non-zero), append otherwise. *)
Fixpoint set_env (name value : string) (overwrite : bool) (environ : list string)
  : list string :=
  match environ with
  | [] => [name +:+ "=" +:+ value]
  | e :: rest =>
      match strip_prefix (name +:+ "=") e with
      | Some _ => (if overwrite then name +:+ "=" +:+ value else e) :: rest
      | None => e :: set_env name value overwrite rest
      end
  end.

Definition setenv (name value : string) (overwrite : Z) : M Z :=
  fun w => Done 0 (World (set_env name value (negb (Z.eqb overwrite 0)) (w_environ w))
                         (w_errno w) (w_stdout w) (w_stderr w) (w_execs w)).

Definition clearenv : M Z :=
  fun w => Done 0 (World [] (w_errno w) (w_stdout w) (w_stderr w) (w_execs w)).

(** The name of an entry: what stands before its first [=]. *)
Fixpoint key_of (entry : string) : string :=
  match entry with
  | EmptyString => EmptyString
  | String a rest => if Ascii.eqb a "=" then EmptyString else String a (key_of rest)
  end.

(** *** Arrays of [char *] *)

Definition alloca (n : Z) : list cptr := replicate (Z.to_nat n) Undef.

(** [a[i] = p]. *)
Definition store (a : list cptr) (i : Z) (p : cptr) : M (list cptr) :=
  if (0 <=? i) && (i <? Z.of_nat (length a))
  then ret (<[Z.to_nat i := p]> a)
  else raise (OutOfBounds i).

(** [argv[i]] for [0 <= i < argc]. *)
Definition load (argv : list string) (i : Z) : M string :=
  if 0 <=? i then
    match argv !! Z.to_nat i with
    | Some s => ret s
    | None => raise (OutOfBounds i)
    end
  else raise (OutOfBounds i).

(** The vector the kernel sees behind a [char **]: the slots up to and
    including the first [NULL]. Running off the array or into a slot never
    written is a fault. *)
Fixpoint read_vector_from (a : list cptr) (i : Z) : fault + list cptr :=
  match a with
  | [] => inl (OutOfBounds i)
  | Undef :: _ => inl UndefinedRead
  | Null :: _ => inr [Null]
  | Str s :: rest =>
      match read_vector_from rest (i + 1) with
      | inr v => inr (Str s :: v)
      | inl f => inl f
      end
  end.

Definition read_vector (a : list cptr) : fault + list cptr := read_vector_from a 0.

(** [execve(path, argv, envp)]. The call is logged; the operating system
    decides whether it returns. *)
Definition execve (sys : os) (path : string) (argv envp : list cptr) : M Z :=
  fun w =>
    match read_vector argv, read_vector envp with
    | inr av, inr ev =>
        let call := ExecCall path av ev in
        let execs := w_execs w ++ [call] in
        match os_exec sys call with
        | None =>
            Halt Replaced (World (w_environ w) (w_errno w) (w_stdout w) (w_stderr w) execs)
        | Some e =>
            Done (-1) (World (w_environ w) e (w_stdout w) (w_stderr w) execs)
        end
    | inl f, _ => Halt (Faulted f) w
    | _, inl f => Halt (Faulted f) w
    end.

(** [execv(path, argv)] passes the current [environ]. *)
Definition execv (sys : os) (path : string) (argv : list cptr) : M Z :=
  fun w => execve sys path argv (map Str (w_environ w) ++ [Null]) w.

End Libc.

Import Libc.

(** ** Running a launcher as a process *)

Inductive status : Type :=
| Exited (code : Z)            (* [main] returned [code] *)
| Execed                       (* the image was replaced *)
| Crashed (f : fault).

Record run : Type := Run {
  r_status : status;
  r_stdout : list string;
  r_stderr : list string;
  r_execs : list exec_call
}.

Definition start (environ : list string) : world := World environ 0 [] [] [].

Definition launch (prog : M Z) (environ : list string) : run :=
  match prog (start environ) with
  | Done code w => Run (Exited code) (w_stdout w) (w_stderr w) (w_execs w)
  | Halt Replaced w => Run Execed (w_stdout w) (w_stderr w) (w_execs w)
  | Halt (Faulted f) w => Run (Crashed f) (w_stdout w) (w_stderr w) (w_execs w)
  end.

(** ** [agent-noshell.c] *)

Module NoShell.

(** [for (i = 1; i < argc && i < 1020; i++) python_argv[i + 3] = argv[i];]
    The loop hands back [i], which the statement after it reads. *)
Fixpoint copy_args (fuel : nat) (argv : list string) (argc i : Z)
    (python_argv : list cptr) : M (Z * list cptr) :=
  if (i <? argc) && (i <? 1020) then
    match fuel with
    | O => raise OutOfFuel
    | S fuel' =>
        a <- load argv i ;;
        python_argv <- store python_argv (i + 3) (Str a) ;;
        copy_args fuel' argv argc (i + 1) python_argv
    end
  else ret (i, python_argv).

(** Lines 27-38, [char *python_argv[1024]] and what is written to it. *)
Definition python_argv (argv : list string) : M (list cptr) :=
  let argc := Z.of_nat (length argv) in
  let python_argv := alloca 1024 in
  python_argv <- store python_argv 0 (Str "/usr/bin/python3") ;;
  python_argv <- store python_argv 1 (Str "-E") ;;
  python_argv <- store python_argv 2 (Str "-s") ;;
  python_argv <- store python_argv 3 (Str "/root/Tools/Mobile-Agent/agent-direct") ;;
  r <- copy_args (Z.to_nat argc) argv argc 1 python_argv ;;
  store (snd r) (fst r + 3) Null.

Definition main (sys : os) (argv : list string) : M Z :=
  let argc := Z.of_nat (length argv) in
  if argc <? 2 then
    fprintf_stderr ("Usage: agent-noshell <request>" +:+ nl) ;;
    ret 1
  else
    clearenv ;;
    setenv "PATH" "/usr/bin:/bin:/usr/local/bin" 1 ;;
    setenv "PYTHONIOENCODING" "utf-8" 1 ;;
    setenv "PYTHONPATH" "/root/Tools/Mobile-Agent" 1 ;;
    setenv "PYTHONDONTWRITEBYTECODE" "1" 1 ;;
    setenv "PYTHONNOUSERSITE" "1" 1 ;;
    python_argv <- python_argv argv ;;
    execv sys "/usr/bin/python3" python_argv ;;
    perror sys "Failed to execute Python" ;;
    ret 1.

End NoShell.

(** ** [agent-noshrc.c] *)

(** Line 60 of the source, [clean_env = clean_env_debug;], assigns to [clean_env], which
    line 37 declares as an array. C has no assignment to arrays and a
    compiler stops at this line, so the source fixes no table for the debug
    branch. The embedding does not choose one: the program takes as a
    parameter what the line leaves [clean_env] to name, the array of line 37
    still (the assignment without effect) or [clean_env_debug] (the swap the
    comment of line 50 announces). *)
Inductive array_assignment : Type :=
| Ignored
| Rebinds.

Definition assign_array (how : array_assignment) (target source : list cptr)
  : list cptr :=
  match how with
  | Ignored => target
  | Rebinds => source
  end.

Module NoShrc.

(** [for (int i = 1; i < argc; i++) { agent_args[i + 1] = argv[i];
    fprintf(stderr, "... Arg %d: %s\n", i, argv[i]); }] *)
Fixpoint copy_args (fuel : nat) (argv : list string) (argc i : Z)
    (agent_args : list cptr) : M (list cptr) :=
  if i <? argc then
    match fuel with
    | O => raise OutOfFuel
    | S fuel' =>
        a <- load argv i ;;
        agent_args <- store agent_args (i + 1) (Str a) ;;
        fprintf_stderr ("🔍 C WRAPPER: Arg " +:+ fmt_d i +:+ ": " +:+ a +:+ nl) ;;
        copy_args fuel' argv argc (i + 1) agent_args
    end
  else ret agent_args.

(** Lines 25-34, [char *agent_args[argc + 2]] and what is written to it. *)
Definition agent_args (argv : list string) : M (list cptr) :=
  let argc := Z.of_nat (length argv) in
  let agent_args := alloca (argc + 2) in
  agent_args <- store agent_args 0 (Str "/root/.mobile-agent/.claude_venv/bin/python") ;;
  agent_args <- store agent_args 1 (Str "/root/.mobile-agent/agent") ;;
  agent_args <- copy_args (Z.to_nat argc) argv argc 1 agent_args ;;
  store agent_args (argc + 1) Null.

(** The initialiser of [clean_env]. *)
Definition clean_env_init : list cptr :=
  [ Str "PATH=/usr/bin:/bin:/usr/local/bin:/sbin:/usr/sbin";
    Str "PYTHONPATH=/root/.mobile-agent";
    Str "PYTHONIOENCODING=utf-8";
    Str "PYTHONNOUSERSITE=1";
    Str "PYTHONDONTWRITEBYTECODE=1";
    Null ].

Definition clean_env_debug : list cptr :=
  [ Str "PATH=/usr/bin:/bin:/usr/local/bin:/sbin:/usr/sbin";
    Str "PYTHONPATH=/root/.mobile-agent";
    Str "PYTHONIOENCODING=utf-8";
    Str "PYTHONNOUSERSITE=1";
    Str "PYTHONDONTWRITEBYTECODE=1";
    Str "AGENT_DEBUG_SUBPROCESS=1";
    Null ].

(** Lines 37-61, the table [clean_env] names when [execve] is reached. *)
Definition clean_env (how : array_assignment) : M (list cptr) :=
  let clean_env := clean_env_init in
  debug_flag <- getenv "AGENT_DEBUG_SUBPROCESS" ;;
  match debug_flag with
  | Some v =>
      if String.eqb v "1" then
        fprintf_stderr ("🔍 C WRAPPER: Adding debug flag" +:+ nl) ;;
        ret (assign_array how clean_env clean_env_debug)
      else ret clean_env
  | None => ret clean_env
  end.

(** [argc > 1 && strcmp(argv[1], "--help") == 0] *)
Definition help_requested (argv : list string) : M bool :=
  let argc := Z.of_nat (length argv) in
  if 1 <? argc then
    a <- load argv 1 ;;
    ret (String.eqb a "--help")
  else ret false.

Definition main (how : array_assignment) (sys : os) (argv : list string) : M Z :=
  let argc := Z.of_nat (length argv) in
  help <- help_requested argv ;;
  if (help : bool) then
    printf ("Mobile Agent C Wrapper (ARM64)" +:+ nl) ;;
    printf ("Prevents .zshrc loading by using execve() directly" +:+ nl) ;;
    a0 <- load argv 0 ;;
    printf ("Usage: " +:+ a0 +:+ " <agent-request>" +:+ nl) ;;
    ret 0
  else
    fprintf_stderr ("🔍 C WRAPPER (ARM64): Starting with " +:+ fmt_d argc +:+ " args" +:+ nl) ;;
    agent_args <- agent_args argv ;;
    clean_env <- clean_env how ;;
    fprintf_stderr ("🔍 C WRAPPER: Executing with clean environment" +:+ nl) ;;
    execve sys "/root/.mobile-agent/.claude_venv/bin/python" agent_args clean_env ;;
    perror sys "🔍 C WRAPPER: execve failed" ;;
    ret 1.

End NoShrc.

(** ** Vocabulary of the statements

    Names for the values the two programs are shown to produce, and for the
    notions the specification uses. *)

(** The two launchers. *)
Inductive variant : Type := AgentNoShell | AgentNoShrc.

Definition main_of (how : array_assignment) (v : variant)
  : os -> list string -> M Z :=
  match v with
  | AgentNoShell => NoShell.main
  | AgentNoShrc => NoShrc.main how
  end.

(** The fixed head of the argument vector of agent-noshell. *)
Definition noshell_prefix : list cptr :=
  [ Str "/usr/bin/python3"; Str "-E"; Str "-s";
    Str "/root/Tools/Mobile-Agent/agent-direct" ].

(** [environ] after lines 17-24 of agent-noshell. *)
Definition noshell_environ : list string :=
  [ "PATH=/usr/bin:/bin:/usr/local/bin";
    "PYTHONIOENCODING=utf-8";
    "PYTHONPATH=/root/Tools/Mobile-Agent";
    "PYTHONDONTWRITEBYTECODE=1";
    "PYTHONNOUSERSITE=1" ].

(** The call of [execv] agent-noshell makes for the caller arguments [args]. *)
Definition noshell_call (args : list string) : exec_call :=
  ExecCall "/usr/bin/python3"
           (noshell_prefix ++ map Str (take 1019 args) ++ [Null])
           (map Str noshell_environ ++ [Null]).

(** The world after [lines] have been written to standard error. *)
Definition with_stderr (w : world) (lines : list string) : world :=
  World (w_environ w) (w_errno w) (w_stdout w) (w_stderr w ++ lines) (w_execs w).

(** The line the loop prints for [argv[i]]. *)
Definition arg_line (i : Z) (a : string) : string :=
  "🔍 C WRAPPER: Arg " +:+ fmt_d i +:+ ": " +:+ a +:+ nl.

(** The lines it prints for [args], the first of them being [argv[i]]. *)
Fixpoint arg_lines (i : Z) (args : list string) : list string :=
  match args with
  | [] => []
  | a :: rest => arg_line i a :: arg_lines (i + 1) rest
  end.

(** The fixed head of the argument vector of agent-noshrc. *)
Definition noshrc_prefix : list cptr :=
  [ Str "/root/.mobile-agent/.claude_venv/bin/python";
    Str "/root/.mobile-agent/agent" ].

(** The test of line 48 on the inherited environment. *)
Definition debug_on (environ : list string) : bool :=
  match lookup_env "AGENT_DEBUG_SUBPROCESS" environ with
  | Some v => String.eqb v "1"
  | None => false
  end.

(** The table [clean_env] names at line 67. *)
Definition noshrc_envp (how : array_assignment) (environ : list string)
  : list cptr :=
  if debug_on environ
  then assign_array how NoShrc.clean_env_init NoShrc.clean_env_debug
  else NoShrc.clean_env_init.

(** What line 49 writes, if it is reached. *)
Definition debug_lines (environ : list string) : list string :=
  if debug_on environ then ["🔍 C WRAPPER: Adding debug flag" +:+ nl] else [].

(** The vector [execve] receives: without any [argv] at all ([argc = 0]) the
    sentinel lands on slot 1. *)
Definition noshrc_vector (argv : list string) : list cptr :=
  match argv with
  | [] => [Str "/root/.mobile-agent/.claude_venv/bin/python"; Null]
  | _ :: args => noshrc_prefix ++ map Str args ++ [Null]
  end.

(** The call of [execve] agent-noshrc makes. *)
Definition noshrc_call (how : array_assignment) (argv environ : list string)
  : exec_call :=
  ExecCall "/root/.mobile-agent/.claude_venv/bin/python"
           (noshrc_vector argv) (noshrc_envp how environ).

(** What [agent-noshrc] has written to standard error when it reaches
    [execve]. *)
Definition noshrc_stderr (argv environ : list string) : list string :=
  ("🔍 C WRAPPER (ARM64): Starting with " +:+ fmt_d (Z.of_nat (length argv))
     +:+ " args" +:+ nl)
  :: arg_lines 1 (tail argv)
  ++ debug_lines environ
  ++ ["🔍 C WRAPPER: Executing with clean environment" +:+ nl].

(** The names a launcher may put into the environment of the interpreter. *)
Definition allow_list : list string :=
  [ "PATH"; "PYTHONPATH"; "PYTHONIOENCODING"; "PYTHONNOUSERSITE";
    "PYTHONDONTWRITEBYTECODE" ].

(** The one inherited variable agent-noshrc reads. *)
Definition debug_toggle : string := "AGENT_DEBUG_SUBPROCESS".

Definition allowed_keys (v : variant) : list string :=
  match v with
  | AgentNoShell => allow_list
  | AgentNoShrc => allow_list ++ [debug_toggle]
  end.

(** The names of the entries of a table. *)
Fixpoint env_keys (table : list cptr) : list string :=
  match table with
  | [] => []
  | Str e :: rest => key_of e :: env_keys rest
  | _ :: rest => env_keys rest
  end.

(** Which part of the inherited environment a variant looks at. *)
Definition agree (v : variant) (environ environ' : list string) : Prop :=
  match v with
  | AgentNoShell => True
  | AgentNoShrc => lookup_env debug_toggle environ = lookup_env debug_toggle environ'
  end.

(** An operating system on which the interpreter is missing ([ENOENT]), and
    one on which every process replacement succeeds. *)
Definition enoent : os := OS (fun _ => Some 2) (fun _ => "No such file or directory").
Definition exec_ok : os := OS (fun _ => None) (fun _ => "Success").

(** The text each variant passes to [perror]. *)
Definition failure_text (v : variant) : string :=
  match v with
  | AgentNoShell => "Failed to execute Python"
  | AgentNoShrc => "🔍 C WRAPPER: execve failed"
  end.

(** The inputs on which a variant gets as far as its process-replacement
    call: past the usage test of agent-noshell, off the --help path of
    agent-noshrc. *)
Definition reaches_exec (v : variant) (argv : list string) : Prop :=
  match v with
  | AgentNoShell => (2 <= length argv)%nat
  | AgentNoShrc => argv !! 1%nat <> Some "--help"
  end.

(** The call a variant makes on such an input. *)
Definition launcher_call (how : array_assignment) (v : variant)
    (argv environ : list string) : exec_call :=
  match v with
  | AgentNoShell => noshell_call (tail argv)
  | AgentNoShrc => noshrc_call how argv environ
  end.

(** The interpreter each variant names in its process-replacement call. *)
Definition interpreter (v : variant) : string :=
  match v with
  | AgentNoShell => "/usr/bin/python3"
  | AgentNoShrc => "/root/.mobile-agent/.claude_venv/bin/python"
  end.

(** The entries of a table, as the new image finds them in its [environ]. *)
Fixpoint env_strings (table : list cptr) : list string :=
  match table with
  | [] => []
  | Str e :: rest => e :: env_strings rest
  | _ :: rest => env_strings rest
  end.

(** Whether a string holds an [=], and what follows the first one. *)
Fixpoint has_eq (s : string) : bool :=
  match s with
  | EmptyString => false
  | String a rest => Ascii.eqb a "=" || has_eq rest
  end.

Fixpoint after_key (entry : string) : string :=
  match entry with
  | EmptyString => EmptyString
  | String a rest => if Ascii.eqb a "=" then rest else after_key rest
  end.

(** ** The programs on a few inputs *)

Example noshell_run_enoent :
  launch (NoShell.main enoent ["agent-noshell"; "list files"; "--fast"])
         ["HOME=/root"; "PATH=/tmp/evil"; "LD_PRELOAD=/tmp/x.so"] =
  Run (Exited 1) []
      ["Failed to execute Python: No such file or directory" +:+ nl]
      [ExecCall "/usr/bin/python3"
         [ Str "/usr/bin/python3"; Str "-E"; Str "-s";
           Str "/root/Tools/Mobile-Agent/agent-direct";
           Str "list files"; Str "--fast"; Null ]
         [ Str "PATH=/usr/bin:/bin:/usr/local/bin"; Str "PYTHONIOENCODING=utf-8";
           Str "PYTHONPATH=/root/Tools/Mobile-Agent"; Str "PYTHONDONTWRITEBYTECODE=1";
           Str "PYTHONNOUSERSITE=1"; Null ]].
Proof. reflexivity. Qed.

Example noshell_run_no_argument :
  launch (NoShell.main exec_ok ["agent-noshell"]) ["HOME=/root"] =
  Run (Exited 1) [] ["Usage: agent-noshell <request>" +:+ nl] [].
Proof. reflexivity. Qed.

Example noshrc_run_debug :
  launch (NoShrc.main Rebinds exec_ok ["agent-noshrc"; "status"; "--help"])
         ["HOME=/root"; "AGENT_DEBUG_SUBPROCESS=1"] =
  Run Execed []
      [ "🔍 C WRAPPER (ARM64): Starting with 3 args" +:+ nl;
        "🔍 C WRAPPER: Arg 1: status" +:+ nl;
        "🔍 C WRAPPER: Arg 2: --help" +:+ nl;
        "🔍 C WRAPPER: Adding debug flag" +:+ nl;
        "🔍 C WRAPPER: Executing with clean environment" +:+ nl ]
      [ExecCall "/root/.mobile-agent/.claude_venv/bin/python"
         [ Str "/root/.mobile-agent/.claude_venv/bin/python";
           Str "/root/.mobile-agent/agent"; Str "status"; Str "--help"; Null ]
         NoShrc.clean_env_debug].
Proof. reflexivity. Qed.

Example noshrc_run_debug_assignment_ignored :
  launch (NoShrc.main Ignored exec_ok ["agent-noshrc"; "status"; "--help"])
         ["HOME=/root"; "AGENT_DEBUG_SUBPROCESS=1"] =
  Run Execed []
      [ "🔍 C WRAPPER (ARM64): Starting with 3 args" +:+ nl;
        "🔍 C WRAPPER: Arg 1: status" +:+ nl;
        "🔍 C WRAPPER: Arg 2: --help" +:+ nl;
        "🔍 C WRAPPER: Adding debug flag" +:+ nl;
        "🔍 C WRAPPER: Executing with clean environment" +:+ nl ]
      [ExecCall "/root/.mobile-agent/.claude_venv/bin/python"
         [ Str "/root/.mobile-agent/.claude_venv/bin/python";
           Str "/root/.mobile-agent/agent"; Str "status"; Str "--help"; Null ]
         NoShrc.clean_env_init].
Proof. reflexivity. Qed.

Example noshrc_run_help :
  launch (NoShrc.main Ignored exec_ok ["agent-noshrc"; "--help"; "status"])
         ["AGENT_DEBUG_SUBPROCESS=1"] =
  Run (Exited 0)
      [ "Mobile Agent C Wrapper (ARM64)" +:+ nl;
        "Prevents .zshrc loading by using execve() directly" +:+ nl;
        "Usage: agent-noshrc <agent-request>" +:+ nl ]
      [] [].
Proof. reflexivity. Qed.

Example noshrc_run_empty_argv :
  launch (NoShrc.main Ignored enoent []) ["AGENT_DEBUG_SUBPROCESS=10"] =
  Run (Exited 1) []
      [ "🔍 C WRAPPER (ARM64): Starting with 0 args" +:+ nl;
        "🔍 C WRAPPER: Executing with clean environment" +:+ nl;
        "🔍 C WRAPPER: execve failed: No such file or directory" +:+ nl ]
      [ExecCall "/root/.mobile-agent/.claude_venv/bin/python"
         [ Str "/root/.mobile-agent/.claude_venv/bin/python"; Null ]
         NoShrc.clean_env_init].
Proof. reflexivity. Qed.

(** ** Facts about the runtime model *)

Lemma bind_done {A B} (m : M A) (k : A -> M B) w a w' :
  m w = Done a w' -> bind m k w = k a w'.
Proof. intros E. unfold bind. rewrite E. reflexivity. Qed.

Lemma bind_halt {A B} (m : M A) (k : A -> M B) w s w' :
  m w = Halt s w' -> bind m k w = Halt s w'.
Proof. intros E. unfold bind. rewrite E. reflexivity. Qed.

Lemma store_in_bounds (a : list cptr) (n : nat) (p : cptr) w :
  (n < length a)%nat ->
  store a (Z.of_nat n) p w = Done (<[n := p]> a) w.
Proof.
  intros Hn. unfold store.
  replace ((0 <=? Z.of_nat n) && (Z.of_nat n <? Z.of_nat (length a))) with true
    by (symmetry; apply andb_true_intro; split; [apply Z.leb_le | apply Z.ltb_lt]; lia).
  rewrite Nat2Z.id. reflexivity.
Qed.

Lemma load_in_bounds (argv : list string) (n : nat) (s : string) w :
  argv !! n = Some s ->
  load argv (Z.of_nat n) w = Done s w.
Proof.
  intros Hs. unfold load.
  replace (0 <=? Z.of_nat n) with true by (symmetry; apply Z.leb_le; lia).
  rewrite Nat2Z.id, Hs. reflexivity.
Qed.

(** A store that is performed was inside the array; one outside it stops
    the program. *)
Lemma store_done (a a' : list cptr) (i : Z) (p : cptr) w w' :
  store a i p w = Done a' w' -> 0 <= i < Z.of_nat (length a).
Proof.
  unfold store. destruct (0 <=? i) eqn:Hlo; destruct (i <? Z.of_nat (length a)) eqn:Hhi;
    cbn; try discriminate.
  intros _. split; [apply Z.leb_le | apply Z.ltb_lt]; assumption.
Qed.

Lemma store_outside (a : list cptr) (i : Z) (p : cptr) w :
  i < 0 \/ Z.of_nat (length a) <= i ->
  store a i p w = Halt (Faulted (OutOfBounds i)) w.
Proof.
  intros H. unfold store.
  replace ((0 <=? i) && (i <? Z.of_nat (length a))) with false; [reflexivity|].
  symmetry. apply andb_false_iff. rewrite Z.leb_gt, Z.ltb_ge. lia.
Qed.

(** The kernel reads a vector of strings closed by [NULL] whole, whatever
    follows the sentinel in the array. *)
Lemma read_vector_from_strings (l : list string) (rest : list cptr) (i : Z) :
  read_vector_from (map Str l ++ Null :: rest) i = inr (map Str l ++ [Null]).
Proof.
  revert i. induction l as [|s l IH]; intros i; simpl.
  - reflexivity.
  - rewrite IH. reflexivity.
Qed.

Lemma read_vector_strings (l : list string) (rest : list cptr) :
  read_vector (map Str l ++ Null :: rest) = inr (map Str l ++ [Null]).
Proof. apply read_vector_from_strings. Qed.

(** ** The copy loop of [agent-noshell] *)

Section NoShellLoop.

Variable argv : list string.

Lemma noshell_copy_args_eq fuel i buf :
  NoShell.copy_args fuel argv (Z.of_nat (length argv)) i buf =
  if (i <? Z.of_nat (length argv)) && (i <? 1020) then
    match fuel with
    | O => raise OutOfFuel
    | S fuel' =>
        a <- load argv i ;;
        buf' <- store buf (i + 3) (Str a) ;;
        NoShell.copy_args fuel' argv (Z.of_nat (length argv)) (i + 1) buf'
    end
  else ret (i, buf).
Proof. destruct fuel; reflexivity. Qed.

(** From [i = n] the loop runs [k] more times, where [n + k] is the smaller
    of [argc] and 1020; it writes slots [n + 3 .. n + k + 2] and nothing
    else, and leaves the world alone. *)
Lemma noshell_copy_args_run (k : nat) :
  forall (fuel n : nat) (buf : list cptr) (w : world),
    (n + k = Nat.min (length argv) 1020)%nat ->
    (k <= fuel)%nat ->
    length buf = 1024%nat ->
    NoShell.copy_args fuel argv (Z.of_nat (length argv)) (Z.of_nat n) buf w =
    Done (Z.of_nat (n + k),
          take (n + 3) buf ++ map Str (take k (drop n argv)) ++ drop (n + 3 + k) buf) w.
Proof.
  induction k as [|k IH]; intros fuel n buf w Hn Hfuel Hlen.
  - rewrite noshell_copy_args_eq.
    replace ((Z.of_nat n <? Z.of_nat (length argv)) && (Z.of_nat n <? 1020)) with false.
    + unfold ret. rewrite !Nat.add_0_r.
      change (map Str (take 0 (drop n argv))) with (@nil cptr).
      rewrite app_nil_l, take_drop. reflexivity.
    + symmetry. apply andb_false_iff.
      rewrite !Z.ltb_ge. lia.
  - rewrite noshell_copy_args_eq.
    replace ((Z.of_nat n <? Z.of_nat (length argv)) && (Z.of_nat n <? 1020)) with true
      by (symmetry; apply andb_true_intro; rewrite !Z.ltb_lt; lia).
    destruct fuel as [|fuel]; [lia|].
    destruct (lookup_lt_is_Some_2 argv n ltac:(lia)) as [a Ha].
    rewrite (bind_done _ _ _ _ _ (load_in_bounds _ _ _ w Ha)).
    replace (Z.of_nat n + 3) with (Z.of_nat (n + 3)) by lia.
    rewrite (bind_done _ _ _ _ _ (store_in_bounds buf (n + 3) (Str a) w ltac:(lia))).
    replace (Z.of_nat n + 1) with (Z.of_nat (S n)) by lia.
    rewrite IH by (rewrite ?length_insert; lia).
    f_equal. f_equal.
    + lia.
    + rewrite (drop_S argv a n Ha).
      replace (S n + 3 + k)%nat with (n + 3 + S k)%nat by lia.
      replace (S n + 3)%nat with (S (n + 3)) by lia.
      rewrite (take_S_r _ _ (Str a)) by (apply list_lookup_insert_eq; lia).
      rewrite take_insert_ge by lia.
      rewrite drop_insert_lt by lia.
      rewrite <- app_assoc. reflexivity.
Qed.

End NoShellLoop.

(** ** The argument vector of [agent-noshell] *)

(** The 1024 slots after line 38: the prefix, at most 1019 caller arguments,
    [NULL], and the slots never written. *)
Lemma noshell_python_argv_run (prog : string) (args : list string) (w : world) :
  NoShell.python_argv (prog :: args) w =
  Done (noshell_prefix ++ map Str (take 1019 args) ++
        Null :: replicate (1019 - length (take 1019 args)) Undef) w.
Proof.
  set (k := Nat.min (length args) 1019).
  assert (Hk : length (take 1019 args) = k) by (rewrite length_take; lia).
  assert (Htk : take 1019 args = take k args).
  { unfold k. destruct (Nat.le_gt_cases (length args) 1019) as [H|H].
    - rewrite Nat.min_l by lia. rewrite !take_ge by lia. reflexivity.
    - rewrite Nat.min_r by lia. reflexivity. }
  unfold NoShell.python_argv.
  set (b0 := alloca 1024).
  assert (L0 : length b0 = 1024%nat) by reflexivity.
  rewrite (bind_done _ _ _ _ _ (store_in_bounds b0 0 _ w ltac:(lia))).
  set (b1 := <[0%nat := _]> b0).
  assert (L1 : length b1 = 1024%nat) by reflexivity.
  rewrite (bind_done _ _ _ _ _ (store_in_bounds b1 1 _ w ltac:(lia))).
  set (b2 := <[1%nat := _]> b1).
  assert (L2 : length b2 = 1024%nat) by reflexivity.
  rewrite (bind_done _ _ _ _ _ (store_in_bounds b2 2 _ w ltac:(lia))).
  set (b3 := <[2%nat := _]> b2).
  assert (L3 : length b3 = 1024%nat) by reflexivity.
  rewrite (bind_done _ _ _ _ _ (store_in_bounds b3 3 _ w ltac:(lia))).
  set (b4 := <[3%nat := _]> b3).
  assert (E4 : b4 = noshell_prefix ++ replicate 1020 Undef) by reflexivity.
  assert (L4 : length b4 = 1024%nat) by reflexivity.
  assert (Hn : (1 + k = Nat.min (length (prog :: args)) 1020)%nat)
    by (unfold k; cbn [length]; lia).
  assert (Hfuel : (k <= Z.to_nat (Z.of_nat (length (prog :: args))))%nat)
    by (rewrite Nat2Z.id; unfold k; cbn [length]; lia).
  assert (Hk1 : (k <= 1019)%nat) by (unfold k; lia).
  assert (Hk2 : (k <= length args)%nat) by (unfold k; lia).
  clearbody k.
  rewrite (bind_done _ _ _ _ _
             (noshell_copy_args_run (prog :: args) k _ 1 b4 w Hn Hfuel L4)).
  cbn [fst snd drop]. rewrite drop_0.
  assert (Etake : take (1 + 3) b4 = noshell_prefix) by reflexivity.
  assert (Edrop : drop (1 + 3 + k) b4 = replicate (1020 - k) Undef).
  { rewrite E4.
    replace (1 + 3 + k)%nat with (length noshell_prefix + k)%nat by reflexivity.
    rewrite <- drop_drop, drop_app_length, drop_replicate. reflexivity. }
  rewrite Etake, Edrop.
  replace (Z.of_nat (1 + k) + 3) with (Z.of_nat (4 + k)) by lia.
  rewrite store_in_bounds
    by (rewrite !length_app, length_map, length_take, length_replicate;
        change (length noshell_prefix) with 4%nat; lia).
  f_equal.
  rewrite Hk, Htk.
  replace (1020 - k)%nat with (S (1019 - k)) by lia.
  cbn [replicate].
  change (length noshell_prefix) with 4%nat.
  rewrite insert_app_r_alt by (change (length noshell_prefix) with 4%nat; lia).
  rewrite insert_app_r_alt
    by (rewrite length_map, length_take; change (length noshell_prefix) with 4%nat; lia).
  rewrite length_map, length_take.
  change (length noshell_prefix) with 4%nat.
  replace (4 + k - 4 - Nat.min k (length args))%nat with 0%nat by lia.
  reflexivity.
Qed.

(** What the kernel reads from that array. *)
Lemma read_vector_noshell (l : list string) (rest : list cptr) :
  read_vector (noshell_prefix ++ map Str l ++ Null :: rest) =
  inr (noshell_prefix ++ map Str l ++ [Null]).
Proof.
  change noshell_prefix
    with (map Str ["/usr/bin/python3"; "-E"; "-s"; "/root/Tools/Mobile-Agent/agent-direct"]).
  rewrite !app_assoc, <- map_app. apply read_vector_strings.
Qed.

(** ** Runs of [agent-noshell] *)

(** One statement whose effect is computed outright. *)
Ltac step :=
  match goal with
  | |- context [bind ?m ?k ?w] => rewrite (bind_done m k w _ _ eq_refl)
  end.

Lemma noshell_main_usage (sys : os) (argv environ : list string) :
  (length argv < 2)%nat ->
  launch (NoShell.main sys argv) environ =
  Run (Exited 1) [] ["Usage: agent-noshell <request>" +:+ nl] [].
Proof.
  intros Hlen. unfold launch, NoShell.main.
  replace (Z.of_nat (length argv) <? 2) with true by (symmetry; apply Z.ltb_lt; lia).
  reflexivity.
Qed.

Lemma noshell_main_exec (sys : os) (prog arg : string) (args environ : list string) :
  launch (NoShell.main sys (prog :: arg :: args)) environ =
  match os_exec sys (noshell_call (arg :: args)) with
  | None => Run Execed [] [] [noshell_call (arg :: args)]
  | Some e =>
      Run (Exited 1) []
          ["Failed to execute Python" +:+ ": " +:+ os_strerror sys e +:+ nl]
          [noshell_call (arg :: args)]
  end.
Proof.
  unfold launch, NoShell.main.
  replace (Z.of_nat (length (prog :: arg :: args)) <? 2) with false
    by (symmetry; apply Z.ltb_ge; cbn [length]; lia).
  do 6 step.
  rewrite (bind_done _ _ _ _ _ (noshell_python_argv_run _ _ _)).
  unfold bind, execv, execve.
  cbn [w_environ w_errno w_stdout w_stderr w_execs].
  rewrite read_vector_noshell, read_vector_strings.
  change (set_env _ _ _ _) with noshell_environ.
  fold (noshell_call (arg :: args)).
  destruct (os_exec sys _) as [e|]; reflexivity.
Qed.

(** ** The copy loop of [agent-noshrc] *)

Lemma with_stderr_nil w : with_stderr w [] = w.
Proof. destruct w. unfold with_stderr. cbn. rewrite app_nil_r. reflexivity. Qed.

Lemma with_stderr_app w l1 l2 :
  with_stderr (with_stderr w l1) l2 = with_stderr w (l1 ++ l2).
Proof. unfold with_stderr. cbn. rewrite app_assoc. reflexivity. Qed.

Lemma fprintf_stderr_run s w : fprintf_stderr s w = Done tt (with_stderr w [s]).
Proof. reflexivity. Qed.

Lemma length_arg_lines i args : length (arg_lines i args) = length args.
Proof. revert i. induction args as [|a args IH]; intros i; simpl; [|rewrite IH]; reflexivity. Qed.

Section NoShrcLoop.

Variable argv : list string.

Lemma noshrc_copy_args_eq fuel i buf :
  NoShrc.copy_args fuel argv (Z.of_nat (length argv)) i buf =
  if i <? (Z.of_nat (length argv)) then
    match fuel with
    | O => raise OutOfFuel
    | S fuel' =>
        a <- load argv i ;;
        buf' <- store buf (i + 1) (Str a) ;;
        fprintf_stderr (arg_line i a) ;;
        NoShrc.copy_args fuel' argv (Z.of_nat (length argv)) (i + 1) buf'
    end
  else ret buf.
Proof. destruct fuel; reflexivity. Qed.

(** From [i = n] the loop copies every remaining argument, [argv[n]] to
    slot [n + 1] and so on, and prints one line for each. *)
Lemma noshrc_copy_args_run (k : nat) :
  forall (fuel n : nat) (buf : list cptr) (w : world),
    (n + k = length argv)%nat ->
    (k <= fuel)%nat ->
    length buf = (length argv + 2)%nat ->
    NoShrc.copy_args fuel argv (Z.of_nat (length argv)) (Z.of_nat n) buf w =
    Done (take (n + 1) buf ++ map Str (drop n argv) ++ drop (n + 1 + k) buf)
         (with_stderr w (arg_lines (Z.of_nat n) (drop n argv))).
Proof.
  induction k as [|k IH]; intros fuel n buf w Hn Hfuel Hlen.
  - rewrite noshrc_copy_args_eq.
    replace (Z.of_nat n <? Z.of_nat (length argv)) with false
      by (symmetry; apply Z.ltb_ge; lia).
    rewrite drop_ge by lia. cbn [map arg_lines].
    rewrite with_stderr_nil, Nat.add_0_r, app_nil_l, take_drop. reflexivity.
  - rewrite noshrc_copy_args_eq.
    replace (Z.of_nat n <? Z.of_nat (length argv)) with true
      by (symmetry; apply Z.ltb_lt; lia).
    destruct fuel as [|fuel]; [lia|].
    destruct (lookup_lt_is_Some_2 argv n ltac:(lia)) as [a Ha].
    rewrite (bind_done _ _ _ _ _ (load_in_bounds _ _ _ w Ha)).
    replace (Z.of_nat n + 1) with (Z.of_nat (n + 1)) by lia.
    rewrite (bind_done _ _ _ _ _ (store_in_bounds buf (n + 1) (Str a) w ltac:(lia))).
    rewrite (bind_done _ _ _ _ _ (fprintf_stderr_run _ w)).
    rewrite IH by (rewrite ?length_insert; lia).
    rewrite with_stderr_app.
    rewrite (drop_S argv a n Ha).
    replace (S n) with (n + 1)%nat by lia.
    cbn [map arg_lines app].
    replace (Z.of_nat n + 1) with (Z.of_nat (n + 1)) by lia.
    f_equal.
    replace (n + 1 + 1 + k)%nat with (n + 1 + S k)%nat by lia.
    replace (n + 1 + 1)%nat with (S (n + 1)) by lia.
    rewrite (take_S_r _ _ (Str a)) by (apply list_lookup_insert_eq; lia).
    rewrite take_insert_ge by lia.
    rewrite drop_insert_lt by lia.
    rewrite <- app_assoc. reflexivity.
Qed.

End NoShrcLoop.

(** ** The argument vector of [agent-noshrc] *)

(** All [argc + 2] slots are written: the prefix, every caller argument,
    [NULL]. *)
Lemma noshrc_agent_args_run (prog : string) (args : list string) (w : world) :
  NoShrc.agent_args (prog :: args) w =
  Done (noshrc_prefix ++ map Str args ++ [Null])
       (with_stderr w (arg_lines 1 args)).
Proof.
  unfold NoShrc.agent_args, alloca.
  set (k := length args).
  replace (Z.to_nat (Z.of_nat (length (prog :: args)) + 2)) with (S (S (S k)))
    by (cbn [length]; unfold k; lia).
  cbn [replicate].
  set (b0 := Undef :: Undef :: Undef :: replicate k Undef).
  assert (L0 : length b0 = (k + 3)%nat)
    by (unfold b0; cbn [length]; rewrite length_replicate; lia).
  rewrite (bind_done _ _ _ _ _ (store_in_bounds b0 0 _ w ltac:(lia))).
  set (b1 := <[0%nat := _]> b0).
  assert (L1 : length b1 = (k + 3)%nat) by (unfold b1; rewrite length_insert; exact L0).
  rewrite (bind_done _ _ _ _ _ (store_in_bounds b1 1 _ w ltac:(lia))).
  set (b2 := <[1%nat := _]> b1).
  assert (E2 : b2 = noshrc_prefix ++ replicate (S k) Undef) by reflexivity.
  assert (L2 : length b2 = (length (prog :: args) + 2)%nat)
    by (unfold b2; rewrite length_insert, L1; cbn [length]; unfold k; lia).
  assert (Hn : (1 + k = length (prog :: args))%nat) by reflexivity.
  assert (Hfuel : (k <= Z.to_nat (Z.of_nat (length (prog :: args))))%nat)
    by (rewrite Nat2Z.id; cbn [length]; unfold k; lia).
  rewrite (bind_done _ _ _ _ _
             (noshrc_copy_args_run (prog :: args) k _ 1 b2 w Hn Hfuel L2)).
  cbn [drop]. rewrite drop_0.
  assert (Etake : take (1 + 1) b2 = noshrc_prefix) by reflexivity.
  assert (Edrop : drop (1 + 1 + k) b2 = [Undef]).
  { rewrite E2.
    replace (1 + 1 + k)%nat with (length noshrc_prefix + k)%nat by reflexivity.
    rewrite <- drop_drop, drop_app_length, drop_replicate.
    replace (S k - k)%nat with 1%nat by lia. reflexivity. }
  rewrite Etake, Edrop.
  replace (Z.of_nat (length (prog :: args)) + 1) with (Z.of_nat (2 + k))
    by (cbn [length]; unfold k; lia).
  rewrite store_in_bounds
    by (rewrite !length_app, length_map; change (length noshrc_prefix) with 2%nat;
        cbn [length]; unfold k; lia).
  f_equal.
  rewrite insert_app_r_alt by (change (length noshrc_prefix) with 2%nat; lia).
  rewrite insert_app_r_alt
    by (rewrite length_map; change (length noshrc_prefix) with 2%nat; unfold k; lia).
  rewrite length_map. change (length noshrc_prefix) with 2%nat.
  replace (2 + k - 2 - length args)%nat with 0%nat by (unfold k; lia).
  reflexivity.
Qed.

Lemma noshrc_agent_args_empty (w : world) :
  NoShrc.agent_args [] w =
  Done [Str "/root/.mobile-agent/.claude_venv/bin/python"; Null] w.
Proof. reflexivity. Qed.

(** ** Runs of [agent-noshrc] *)

Lemma noshrc_clean_env_run (how : array_assignment) (w : world) :
  NoShrc.clean_env how w =
  Done (noshrc_envp how (w_environ w)) (with_stderr w (debug_lines (w_environ w))).
Proof.
  unfold NoShrc.clean_env, noshrc_envp, debug_lines, debug_on.
  step. cbn beta.
  destruct (lookup_env _ _) as [v|].
  - destruct (String.eqb v "1"); [reflexivity|].
    unfold ret. rewrite with_stderr_nil. reflexivity.
  - unfold ret. rewrite with_stderr_nil. reflexivity.
Qed.

Lemma noshrc_help_requested_run (argv : list string) (w : world) :
  NoShrc.help_requested argv w =
  Done (match argv !! 1%nat with
        | Some a => String.eqb a "--help"
        | None => false
        end) w.
Proof.
  unfold NoShrc.help_requested.
  destruct argv as [|prog [|a rest]]; [reflexivity | reflexivity |].
  replace (1 <? Z.of_nat (length (prog :: a :: rest))) with true
    by (symmetry; apply Z.ltb_lt; cbn [length]; lia).
  reflexivity.
Qed.

Lemma noshrc_main_help (how : array_assignment) (sys : os) (prog : string) (rest environ : list string) :
  launch (NoShrc.main how sys (prog :: "--help" :: rest)) environ =
  Run (Exited 0)
      [ "Mobile Agent C Wrapper (ARM64)" +:+ nl;
        "Prevents .zshrc loading by using execve() directly" +:+ nl;
        "Usage: " +:+ prog +:+ " <agent-request>" +:+ nl ]
      [] [].
Proof.
  unfold launch, NoShrc.main.
  rewrite (bind_done _ _ _ _ _ (noshrc_help_requested_run _ _)).
  reflexivity.
Qed.

Lemma read_vector_noshrc_envp (how : array_assignment) (environ : list string) :
  read_vector (noshrc_envp how environ) = inr (noshrc_envp how environ).
Proof.
  unfold noshrc_envp. destruct (debug_on environ); [destruct how|]; reflexivity.
Qed.

Lemma read_vector_noshrc_vector argv :
  read_vector (noshrc_vector argv) = inr (noshrc_vector argv).
Proof.
  destruct argv as [|prog args]; [reflexivity|].
  unfold noshrc_vector.
  change noshrc_prefix
    with (map Str ["/root/.mobile-agent/.claude_venv/bin/python"; "/root/.mobile-agent/agent"]).
  rewrite app_assoc, <- map_app. apply read_vector_strings.
Qed.

Lemma noshrc_main_exec (how : array_assignment) (sys : os) (argv environ : list string) :
  argv !! 1%nat <> Some "--help" ->
  launch (NoShrc.main how sys argv) environ =
  match os_exec sys (noshrc_call how argv environ) with
  | None => Run Execed [] (noshrc_stderr argv environ) [noshrc_call how argv environ]
  | Some e =>
      Run (Exited 1) []
          (noshrc_stderr argv environ ++
           ["🔍 C WRAPPER: execve failed" +:+ ": " +:+ os_strerror sys e +:+ nl])
          [noshrc_call how argv environ]
  end.
Proof.
  intros Hhelp. unfold launch, NoShrc.main.
  rewrite (bind_done _ _ _ _ _ (noshrc_help_requested_run _ _)).
  replace (match argv !! 1%nat with Some a => String.eqb a "--help" | None => false end)
    with false.
  2:{ destruct (argv !! 1%nat) as [a|]; [|reflexivity].
      symmetry. apply String.eqb_neq. congruence. }
  rewrite (bind_done _ _ _ _ _ (fprintf_stderr_run _ _)).
  assert (Hargs : forall w, NoShrc.agent_args argv w =
                            Done (noshrc_vector argv) (with_stderr w (arg_lines 1 (tail argv)))).
  { intros w. destruct argv as [|prog args].
    - rewrite noshrc_agent_args_empty. cbn [tail arg_lines]. rewrite with_stderr_nil.
      reflexivity.
    - apply noshrc_agent_args_run. }
  rewrite (bind_done _ _ _ _ _ (Hargs _)).
  rewrite (bind_done _ _ _ _ _ (noshrc_clean_env_run _ _)).
  rewrite (bind_done _ _ _ _ _ (fprintf_stderr_run _ _)).
  unfold bind, execve.
  rewrite read_vector_noshrc_vector.
  cbn [w_environ with_stderr start w_errno w_stdout w_stderr w_execs].
  rewrite read_vector_noshrc_envp.
  fold (noshrc_call how argv environ).
  destruct (os_exec sys _) as [e|]; unfold noshrc_stderr; cbn; rewrite <- ?app_assoc;
    reflexivity.
Qed.

(** ** Entries and values of an environment *)

Lemma strip_prefix_Some (p s v : string) :
  strip_prefix p s = Some v -> s = p +:+ v.
Proof.
  revert s. induction p as [|a p IH]; intros s; simpl.
  - intros [= ->]. reflexivity.
  - destruct s as [|b s]; [discriminate|].
    destruct (Ascii.eqb a b) eqn:Hab; [|discriminate].
    apply Ascii.eqb_eq in Hab as ->.
    intros H. rewrite (IH _ H). reflexivity.
Qed.

Lemma strip_prefix_app (p v : string) : strip_prefix p (p +:+ v) = Some v.
Proof.
  induction p as [|a p IH]; simpl; [reflexivity|].
  rewrite Ascii.eqb_refl. exact IH.
Qed.

(** An entry [getenv] accepts for AGENT_DEBUG_SUBPROCESS has that name. *)
Lemma strip_prefix_debug_key (e v : string) :
  strip_prefix ("AGENT_DEBUG_SUBPROCESS" +:+ "=") e = Some v ->
  key_of e = "AGENT_DEBUG_SUBPROCESS".
Proof. intros H. rewrite (strip_prefix_Some _ _ _ H). reflexivity. Qed.

(** No entry of that name: [getenv] finds nothing. *)
Lemma lookup_env_debug_absent (environ : list string) :
  (forall e, In e environ -> key_of e <> "AGENT_DEBUG_SUBPROCESS") ->
  lookup_env "AGENT_DEBUG_SUBPROCESS" environ = None.
Proof.
  induction environ as [|e rest IH]; intros Habs; cbn [lookup_env]; [reflexivity|].
  destruct (strip_prefix _ e) as [v|] eqn:Hv.
  - exfalso. apply (Habs e); [left; reflexivity|].
    exact (strip_prefix_debug_key _ _ Hv).
  - apply IH. intros e' He'. apply Habs. right. exact He'.
Qed.

(** In an environment whose names are pairwise distinct, the entry
    AGENT_DEBUG_SUBPROCESS=value is the one [getenv] finds. *)
Lemma lookup_env_debug_entry (environ : list string) (value : string) :
  List.NoDup (map key_of environ) ->
  In ("AGENT_DEBUG_SUBPROCESS=" +:+ value) environ ->
  lookup_env "AGENT_DEBUG_SUBPROCESS" environ = Some value.
Proof.
  induction environ as [|e rest IH]; intros Hnd Hin; [destruct Hin|].
  cbn [map] in Hnd. apply List.NoDup_cons_iff in Hnd as [Hfresh Hnd].
  cbn [lookup_env].
  destruct Hin as [-> | Hin].
  - change ("AGENT_DEBUG_SUBPROCESS" +:+ "=") with "AGENT_DEBUG_SUBPROCESS=".
    rewrite strip_prefix_app. reflexivity.
  - destruct (strip_prefix _ e) as [v|] eqn:Hv.
    + exfalso. apply Hfresh.
      rewrite (strip_prefix_debug_key _ _ Hv).
      change "AGENT_DEBUG_SUBPROCESS" with (key_of ("AGENT_DEBUG_SUBPROCESS=" +:+ value)).
      apply in_map. exact Hin.
    + apply IH; assumption.
Qed.

(** ** The calls a run makes *)

(** [agent-noshell] calls [execv] only past its usage check, and then once. *)
Lemma noshell_execs (sys : os) (argv environ : list string) (call : exec_call) :
  In call (r_execs (launch (NoShell.main sys argv) environ)) ->
  exists prog arg args,
    argv = prog :: arg :: args /\
    call = noshell_call (arg :: args) /\
    r_execs (launch (NoShell.main sys argv) environ) = [call].
Proof.
  destruct argv as [|prog [|arg args]].
  - rewrite noshell_main_usage by (cbn; lia). intros [].
  - rewrite noshell_main_usage by (cbn; lia). intros [].
  - rewrite noshell_main_exec.
    intros Hin. exists prog, arg, args.
    destruct (os_exec sys _); cbn in Hin |- *;
      destruct Hin as [<-|[]]; auto.
Qed.

(** [agent-noshrc] calls [execve] only off the [--help] path, and then once. *)
Lemma noshrc_execs (how : array_assignment) (sys : os) (argv environ : list string) (call : exec_call) :
  In call (r_execs (launch (NoShrc.main how sys argv) environ)) ->
  argv !! 1%nat <> Some "--help" /\
  call = noshrc_call how argv environ /\
  r_execs (launch (NoShrc.main how sys argv) environ) = [call].
Proof.
  destruct (decide (argv !! 1%nat = Some "--help")) as [Hh|Hh].
  - destruct argv as [|prog [|a rest]]; try discriminate Hh.
    injection Hh as ->. rewrite noshrc_main_help. intros [].
  - rewrite (noshrc_main_exec how sys argv environ Hh).
    intros Hin. split; [exact Hh|].
    destruct (os_exec sys _); cbn in Hin |- *;
      destruct Hin as [<-|[]]; auto.
Qed.

(** *** Environment tables *)

Lemma exec_envp (how : array_assignment) (v : variant) (sys : os) (argv environ : list string) (call : exec_call) :
  In call (r_execs (launch (main_of how v sys argv) environ)) ->
  ex_envp call =
  match v with
  | AgentNoShell => map Str noshell_environ ++ [Null]
  | AgentNoShrc => noshrc_envp how environ
  end.
Proof.
  destruct v; cbn [main_of]; intros Hin.
  - destruct (noshell_execs _ _ _ _ Hin) as (prog & arg & args & _ & -> & _). reflexivity.
  - destruct (noshrc_execs _ _ _ _ _ Hin) as (_ & -> & _). reflexivity.
Qed.

(** C1. Whatever environment a launcher inherits, the table it hands to the
    process-replacement call is a list of entries closed by the NULL
    sentinel, has no two entries of the same name, and names exactly the
    variables of the allow-list (PATH, PYTHONPATH, PYTHONIOENCODING,
    PYTHONNOUSERSITE, PYTHONDONTWRITEBYTECODE), plus at most
    AGENT_DEBUG_SUBPROCESS in agent-noshrc and nothing else in agent-noshell.
    Two runs of a variant build the same table: always in agent-noshell, and
    in agent-noshrc as soon as the two inherited environments give
    AGENT_DEBUG_SUBPROCESS the same value. *)
Theorem env_table_allow_listed (how : array_assignment)
    (v : variant) (sys sys' : os) (argv argv' environ environ' : list string)
    (call call' : exec_call) :
  In call (r_execs (launch (main_of how v sys argv) environ)) ->
  In call' (r_execs (launch (main_of how v sys' argv') environ')) ->
  agree v environ environ' ->
  (exists entries, ex_envp call = map Str entries ++ [Null]) /\
  List.NoDup (env_keys (ex_envp call)) /\
  (forall key, In key (env_keys (ex_envp call)) -> In key (allowed_keys v)) /\
  (forall key, In key allow_list -> In key (env_keys (ex_envp call))) /\
  ex_envp call = ex_envp call'.
Proof.
  intros Hc Hc' Hagree.
  rewrite (exec_envp _ _ _ _ _ _ Hc), (exec_envp _ _ _ _ _ _ Hc').
  destruct v; cbn [agree allowed_keys] in *.
  - split; [|split; [|split; [|split]]].
    + exists noshell_environ. reflexivity.
    + cbv. repeat (constructor; [cbn; intuition discriminate|]). constructor.
    + intros key Hkey. cbv in Hkey |- *. intuition auto.
    + intros key Hkey. cbv in Hkey |- *. intuition auto.
    + reflexivity.
  - assert (Hd : debug_on environ = debug_on environ')
      by (unfold debug_on; fold debug_toggle; rewrite Hagree; reflexivity).
    unfold noshrc_envp. rewrite <- Hd.
    destruct (debug_on environ); [destruct how|]; cbn [assign_array];
      (split; [|split; [|split; [|split]]];
      [ first [ exists [ "PATH=/usr/bin:/bin:/usr/local/bin:/sbin:/usr/sbin";
                         "PYTHONPATH=/root/.mobile-agent"; "PYTHONIOENCODING=utf-8";
                         "PYTHONNOUSERSITE=1"; "PYTHONDONTWRITEBYTECODE=1" ];
                reflexivity
              | exists [ "PATH=/usr/bin:/bin:/usr/local/bin:/sbin:/usr/sbin";
                         "PYTHONPATH=/root/.mobile-agent"; "PYTHONIOENCODING=utf-8";
                         "PYTHONNOUSERSITE=1"; "PYTHONDONTWRITEBYTECODE=1";
                         "AGENT_DEBUG_SUBPROCESS=1" ];
                reflexivity ]
      | cbv; repeat (constructor; [cbn; intuition discriminate|]); constructor
      | intros key Hkey; cbv in Hkey |- *; intuition auto
      | intros key Hkey; cbv in Hkey |- *; intuition auto
      | reflexivity ]).
Qed.

Lemma env_table_allow_listed_witness :
  (exists entries,
     ex_envp (noshrc_call Ignored ["agent-noshrc"; "status"]
                          ["HOME=/root"; "AGENT_DEBUG_SUBPROCESS=1"]) =
     map Str entries ++ [Null]) /\
  List.NoDup
    (env_keys (ex_envp (noshrc_call Ignored ["agent-noshrc"; "status"]
                                    ["HOME=/root"; "AGENT_DEBUG_SUBPROCESS=1"]))) /\
  (forall key,
     In key (env_keys (ex_envp (noshrc_call Ignored ["agent-noshrc"; "status"]
                                            ["HOME=/root"; "AGENT_DEBUG_SUBPROCESS=1"]))) ->
     In key (allowed_keys AgentNoShrc)) /\
  (forall key,
     In key allow_list ->
     In key (env_keys (ex_envp (noshrc_call Ignored ["agent-noshrc"; "status"]
                                            ["HOME=/root"; "AGENT_DEBUG_SUBPROCESS=1"])))) /\
  ex_envp (noshrc_call Ignored ["agent-noshrc"; "status"]
                       ["HOME=/root"; "AGENT_DEBUG_SUBPROCESS=1"]) =
  ex_envp (noshrc_call Ignored ["agent-noshrc"]
                       ["AGENT_DEBUG_SUBPROCESS=1"; "LD_PRELOAD=/tmp/x.so"]).
Proof.
  apply (env_table_allow_listed Ignored AgentNoShrc enoent exec_ok
           ["agent-noshrc"; "status"] ["agent-noshrc"]
           ["HOME=/root"; "AGENT_DEBUG_SUBPROCESS=1"]
           ["AGENT_DEBUG_SUBPROCESS=1"; "LD_PRELOAD=/tmp/x.so"]).
  - vm_compute. left. reflexivity.
  - vm_compute. left. reflexivity.
  - vm_compute. reflexivity.
Defined.

(** *** Argument vectors *)

(** C2. For L caller arguments within the loop bound of agent-noshell
    (0 <= L <= 1019), lines 27-38 leave in [python_argv] the vector
    [/usr/bin/python3, -E, -s, script, caller arguments..., NULL]; past the
    usage check (L >= 1) [execv] is called once with it: L + 4 + 1 entries,
    the caller's arguments in their order and unchanged, the sentinel last.
    For any number L of caller arguments, agent-noshrc builds
    [python, agent, caller arguments..., NULL], L + 2 + 1 entries, and calls
    [execve] once with it unless the first argument is --help. *)
Theorem argument_vector_layout (how : array_assignment)
    (sys : os) (prog : string) (args environ : list string) :
  ((length args <= 1019)%nat ->
   forall w, exists buf,
     NoShell.python_argv (prog :: args) w = Done buf w /\
     read_vector buf = inr (noshell_prefix ++ map Str args ++ [Null])) /\
  ((1 <= length args <= 1019)%nat ->
   exists call,
     r_execs (launch (NoShell.main sys (prog :: args)) environ) = [call] /\
     ex_argv call = noshell_prefix ++ map Str args ++ [Null] /\
     length (ex_argv call) = (length args + 4 + 1)%nat /\
     last (ex_argv call) = Some Null) /\
  (forall w, exists w',
     NoShrc.agent_args (prog :: args) w =
     Done (noshrc_prefix ++ map Str args ++ [Null]) w') /\
  (args !! 0%nat <> Some "--help" ->
   exists call,
     r_execs (launch (NoShrc.main how sys (prog :: args)) environ) = [call] /\
     ex_argv call = noshrc_prefix ++ map Str args ++ [Null] /\
     length (ex_argv call) = (length args + 2 + 1)%nat /\
     last (ex_argv call) = Some Null).
Proof.
  split; [|split; [|split]].
  - intros Hhi w. eexists. split; [apply noshell_python_argv_run|].
    rewrite read_vector_noshell, take_ge by lia. reflexivity.
  - intros [Hlo Hhi].
    destruct args as [|arg args]; [cbn in Hlo; lia|].
    exists (noshell_call (arg :: args)).
    rewrite noshell_main_exec.
    split; [destruct (os_exec sys _); reflexivity|].
    unfold noshell_call. cbn [ex_argv].
    rewrite take_ge by lia.
    split; [reflexivity|]. split.
    + rewrite !length_app, length_map. change (length noshell_prefix) with 4%nat.
      cbn [length]. lia.
    + rewrite app_assoc. apply last_snoc.
  - intros w. eexists. apply noshrc_agent_args_run.
  - intros Hhelp.
    exists (noshrc_call how (prog :: args) environ).
    rewrite (noshrc_main_exec how sys (prog :: args) environ Hhelp).
    split; [destruct (os_exec sys _); reflexivity|].
    cbn [noshrc_call noshrc_vector ex_argv].
    split; [reflexivity|]. split.
    + rewrite !length_app, length_map. change (length noshrc_prefix) with 2%nat.
      cbn [length]. lia.
    + rewrite app_assoc. apply last_snoc.
Qed.

Lemma argument_vector_layout_witness :
  (exists buf,
     NoShell.python_argv ["agent-noshell"] (start []) = Done buf (start []) /\
     read_vector buf = inr (noshell_prefix ++ map Str [] ++ [Null])) /\
  (exists call,
     r_execs (launch (NoShell.main enoent ["agent-noshell"; "list files"; "--fast"])
                     ["HOME=/root"]) = [call] /\
     ex_argv call = noshell_prefix ++ map Str ["list files"; "--fast"] ++ [Null] /\
     length (ex_argv call) = (2 + 4 + 1)%nat /\
     last (ex_argv call) = Some Null) /\
  (exists call,
     r_execs (launch (NoShrc.main Ignored enoent ["agent-noshrc"; "list files"; "--fast"])
                     ["HOME=/root"]) = [call] /\
     ex_argv call = noshrc_prefix ++ map Str ["list files"; "--fast"] ++ [Null] /\
     length (ex_argv call) = (2 + 2 + 1)%nat /\
     last (ex_argv call) = Some Null).
Proof.
  pose proof (argument_vector_layout Ignored enoent "agent-noshell" [] [])
    as (Hbuild & _ & _ & _).
  pose proof (argument_vector_layout Ignored enoent "agent-noshell"
                ["list files"; "--fast"] ["HOME=/root"]) as (_ & Hshell & _ & _).
  pose proof (argument_vector_layout Ignored enoent "agent-noshrc"
                ["list files"; "--fast"] ["HOME=/root"]) as (_ & _ & _ & Hshrc).
  split; [|split].
  - apply Hbuild. cbn. lia.
  - apply Hshell. cbn. lia.
  - apply Hshrc. cbn. discriminate.
Defined.

(** *** Failure of the process-replacement call *)

(** C3. On every input that takes a launcher to its process-replacement
    call (argc >= 2 in agent-noshell, argv[1] other than --help in
    agent-noshrc), if the operating system fails that call with some error
    number, the run ends with exit code 1 (so neither with code 0 nor
    without an end), the last thing written to standard error is the
    non-empty [perror] message carrying the reason, and that call is the
    only one the run makes: nothing is retried and no other interpreter is
    tried. *)
Theorem exec_failure_reported
    (how : array_assignment) (v : variant) (sys : os) (argv environ : list string)
    (e : Z) :
  reaches_exec v argv ->
  os_exec sys (launcher_call how v argv environ) = Some e ->
  r_status (launch (main_of how v sys argv) environ) = Exited 1 /\
  r_execs (launch (main_of how v sys argv) environ) =
    [launcher_call how v argv environ] /\
  last (r_stderr (launch (main_of how v sys argv) environ)) =
    Some (failure_text v +:+ ": " +:+ os_strerror sys e +:+ nl) /\
  failure_text v +:+ ": " +:+ os_strerror sys e +:+ nl <> "".
Proof.
  destruct v; cbn [main_of failure_text reaches_exec launcher_call];
    intros Hreach Hfail.
  - destruct argv as [|prog [|arg args]]; [cbn in Hreach; lia .. |].
    cbn [tail] in Hfail.
    rewrite noshell_main_exec, Hfail. cbn [r_status r_execs r_stderr].
    repeat split. discriminate.
  - rewrite (noshrc_main_exec how sys argv environ Hreach), Hfail.
    cbn [r_status r_execs r_stderr].
    repeat split; [apply last_snoc | discriminate].
Qed.

Lemma exec_failure_reported_witness :
  (r_status (launch (main_of Ignored AgentNoShell enoent ["agent-noshell"; "status"])
                    ["HOME=/root"]) = Exited 1 /\
   r_execs (launch (main_of Ignored AgentNoShell enoent ["agent-noshell"; "status"])
                   ["HOME=/root"]) =
     [launcher_call Ignored AgentNoShell ["agent-noshell"; "status"] ["HOME=/root"]] /\
   last (r_stderr (launch (main_of Ignored AgentNoShell enoent
                                   ["agent-noshell"; "status"]) ["HOME=/root"])) =
     Some (failure_text AgentNoShell +:+ ": " +:+ os_strerror enoent 2 +:+ nl) /\
   failure_text AgentNoShell +:+ ": " +:+ os_strerror enoent 2 +:+ nl <> "") /\
  (r_status (launch (main_of Ignored AgentNoShrc enoent ["agent-noshrc"; "status"])
                    ["HOME=/root"]) = Exited 1 /\
   r_execs (launch (main_of Ignored AgentNoShrc enoent ["agent-noshrc"; "status"])
                   ["HOME=/root"]) =
     [launcher_call Ignored AgentNoShrc ["agent-noshrc"; "status"] ["HOME=/root"]] /\
   last (r_stderr (launch (main_of Ignored AgentNoShrc enoent
                                   ["agent-noshrc"; "status"]) ["HOME=/root"])) =
     Some (failure_text AgentNoShrc +:+ ": " +:+ os_strerror enoent 2 +:+ nl) /\
   failure_text AgentNoShrc +:+ ": " +:+ os_strerror enoent 2 +:+ nl <> "").
Proof.
  split.
  - apply (exec_failure_reported Ignored AgentNoShell enoent
             ["agent-noshell"; "status"] ["HOME=/root"] 2).
    + cbn. lia.
    + reflexivity.
  - apply (exec_failure_reported Ignored AgentNoShrc enoent
             ["agent-noshrc"; "status"] ["HOME=/root"] 2).
    + cbn. discriminate.
    + reflexivity.
Defined.

(** *** The debug toggle of [agent-noshrc] *)

(** C4. In agent-noshrc, on every input off the --help path one [execve]
    call is made, and: when AGENT_DEBUG_SUBPROCESS is absent or has the value
    0, the table passed has no entry of that name, whatever line 60 does;
    when it has the value 1, the debug branch is taken (its line is written
    to standard error) and the table passed is what line 60 leaves
    [clean_env] to name, so the entry AGENT_DEBUG_SUBPROCESS=1 is in it if
    and only if the assignment to the array rebinds it. With the array left
    as line 37 declares it, the entry is not forwarded. The value of the
    variable is what [getenv] returns; in an environment with pairwise
    distinct names that is the value of the entry of that name, and the
    variable is absent when no entry bears the name. *)
Theorem debug_toggle_needs_assignment
    (how : array_assignment) (sys : os) (argv environ : list string) :
  argv !! 1%nat <> Some "--help" ->
  exists call,
    r_execs (launch (NoShrc.main how sys argv) environ) = [call] /\
    (lookup_env debug_toggle environ = None \/
     lookup_env debug_toggle environ = Some "0" ->
     ~ In debug_toggle (env_keys (ex_envp call))) /\
    (List.NoDup (map key_of environ) ->
     In "AGENT_DEBUG_SUBPROCESS=0" environ ->
     ~ In debug_toggle (env_keys (ex_envp call))) /\
    ((forall e, In e environ -> key_of e <> debug_toggle) ->
     ~ In debug_toggle (env_keys (ex_envp call))) /\
    (lookup_env debug_toggle environ = Some "1" ->
     In ("🔍 C WRAPPER: Adding debug flag" +:+ nl)
        (r_stderr (launch (NoShrc.main how sys argv) environ)) /\
     ex_envp call = assign_array how NoShrc.clean_env_init NoShrc.clean_env_debug /\
     (In (Str "AGENT_DEBUG_SUBPROCESS=1") (ex_envp call) <-> how = Rebinds)).
Proof.
  intros Hhelp. exists (noshrc_call how argv environ).
  rewrite (noshrc_main_exec how sys argv environ Hhelp).
  split; [destruct (os_exec sys _); reflexivity|].
  cbn [noshrc_call ex_envp]. unfold noshrc_envp, debug_on. fold debug_toggle.
  assert (Hoff : lookup_env debug_toggle environ = None \/
                 lookup_env debug_toggle environ = Some "0" ->
                 ~ In debug_toggle
                      (env_keys (if match lookup_env debug_toggle environ with
                                    | Some v => String.eqb v "1"
                                    | None => false
                                    end
                                 then assign_array how NoShrc.clean_env_init
                                                   NoShrc.clean_env_debug
                                 else NoShrc.clean_env_init)))
    by (intros [-> | ->]; cbv; intuition discriminate).
  split; [exact Hoff|]. split; [|split].
  - intros Hnd H0. apply Hoff. right.
    apply (lookup_env_debug_entry environ "0"); assumption.
  - intros Habs. apply Hoff. left. apply lookup_env_debug_absent. exact Habs.
  - intros Hone.
    assert (Hd : debug_on environ = true)
      by (unfold debug_on; fold debug_toggle; rewrite Hone; reflexivity).
    rewrite Hone. cbn [String.eqb Ascii.eqb Bool.eqb].
    split; [|split].
    + assert (Hline : In ("🔍 C WRAPPER: Adding debug flag" +:+ nl)
                         (noshrc_stderr argv environ)).
      { unfold noshrc_stderr, debug_lines. rewrite Hd.
        right. apply in_or_app. right. left. reflexivity. }
      destruct (os_exec sys _); cbn [r_stderr]; [|exact Hline].
      apply in_or_app. left. exact Hline.
    + reflexivity.
    + destruct how; cbn [assign_array]; split.
      * cbn. intuition discriminate.
      * discriminate.
      * reflexivity.
      * intros _. cbn. auto 10.
Qed.

Lemma debug_toggle_needs_assignment_witness :
  exists call,
    r_execs (launch (NoShrc.main Ignored exec_ok ["agent-noshrc"; "status"])
                    ["HOME=/root"; "AGENT_DEBUG_SUBPROCESS=1"]) = [call] /\
    In ("🔍 C WRAPPER: Adding debug flag" +:+ nl)
       (r_stderr (launch (NoShrc.main Ignored exec_ok ["agent-noshrc"; "status"])
                         ["HOME=/root"; "AGENT_DEBUG_SUBPROCESS=1"])) /\
    ex_envp call = NoShrc.clean_env_init /\
    ~ In (Str "AGENT_DEBUG_SUBPROCESS=1") (ex_envp call).
Proof.
  destruct (debug_toggle_needs_assignment Ignored exec_ok ["agent-noshrc"; "status"]
              ["HOME=/root"; "AGENT_DEBUG_SUBPROCESS=1"])
    as (call & Hcall & _ & _ & _ & Hone); [cbn; discriminate|].
  destruct (Hone eq_refl) as (Hline & Htable & Hiff).
  exists call. split; [exact Hcall|]. split; [exact Hline|]. split; [exact Htable|].
  intros Hin. apply Hiff in Hin. discriminate Hin.
Defined.

(** C9. In agent-noshrc, whatever value other than exactly 1 the inherited
    environment gives AGENT_DEBUG_SUBPROCESS (true, 01, 1 followed by a
    blank, the empty string, ...), the table passed to [execve] is the
    five-entry table and has no entry of that name. *)
Theorem debug_toggle_exact_match (how : array_assignment)
    (sys : os) (argv environ : list string) (call : exec_call) (value : string) :
  In call (r_execs (launch (NoShrc.main how sys argv) environ)) ->
  lookup_env debug_toggle environ = Some value ->
  value <> "1" ->
  ex_envp call = NoShrc.clean_env_init /\
  ~ In debug_toggle (env_keys (ex_envp call)).
Proof.
  intros Hin Hval Hne. destruct (noshrc_execs _ _ _ _ _ Hin) as (_ & -> & _).
  cbn [noshrc_call ex_envp]. unfold noshrc_envp, debug_on. fold debug_toggle.
  rewrite Hval.
  replace (String.eqb value "1") with false by (symmetry; apply String.eqb_neq; exact Hne).
  split; [reflexivity|]. cbv. intuition discriminate.
Qed.

Lemma debug_toggle_exact_match_witness :
  ex_envp (noshrc_call Ignored ["agent-noshrc"; "status"] ["AGENT_DEBUG_SUBPROCESS=true"]) =
    NoShrc.clean_env_init /\
  ~ In debug_toggle
       (env_keys (ex_envp (noshrc_call Ignored ["agent-noshrc"; "status"]
                                       ["AGENT_DEBUG_SUBPROCESS=true"]))).
Proof.
  apply (debug_toggle_exact_match Ignored exec_ok ["agent-noshrc"; "status"]
           ["AGENT_DEBUG_SUBPROCESS=true"] _ "true").
  - vm_compute. left. reflexivity.
  - reflexivity.
  - discriminate.
Defined.

(** The values the claim names, and a few more, all fail the test of
    line 48. *)
Example debug_on_only_for_1 :
  map (fun value => debug_on ["AGENT_DEBUG_SUBPROCESS=" +:+ value])
      ["1"; "0"; "true"; "01"; "1 "; ""; "11"; " 1"] =
  [true; false; false; false; false; false; false; false].
Proof. reflexivity. Qed.

(** *** The [--help] flag of [agent-noshrc] *)

(** C5. In agent-noshrc, when the first caller argument is exactly --help,
    the run prints the three-line usage banner to standard output and ends
    with exit code 0 without calling [execve]. When the first caller argument
    is anything else, whatever follows it (--help included), nothing is
    written to standard output, [execve] is called, and the run does not end
    with exit code 0. *)
Theorem help_flag_first_argument_only (how : array_assignment)
    (sys : os) (prog first : string) (rest environ : list string) :
  (first = "--help" ->
   launch (NoShrc.main how sys (prog :: first :: rest)) environ =
   Run (Exited 0)
       [ "Mobile Agent C Wrapper (ARM64)" +:+ nl;
         "Prevents .zshrc loading by using execve() directly" +:+ nl;
         "Usage: " +:+ prog +:+ " <agent-request>" +:+ nl ]
       [] []) /\
  (first <> "--help" ->
   r_stdout (launch (NoShrc.main how sys (prog :: first :: rest)) environ) = [] /\
   r_execs (launch (NoShrc.main how sys (prog :: first :: rest)) environ) =
     [noshrc_call how (prog :: first :: rest) environ] /\
   r_status (launch (NoShrc.main how sys (prog :: first :: rest)) environ) <> Exited 0).
Proof.
  split.
  - intros ->. apply noshrc_main_help.
  - intros Hne.
    rewrite (noshrc_main_exec how sys (prog :: first :: rest) environ)
      by (cbn; congruence).
    destruct (os_exec sys _); cbn [r_stdout r_execs r_status]; repeat split; discriminate.
Qed.

Lemma help_flag_first_argument_only_witness :
  launch (NoShrc.main Ignored exec_ok ["agent-noshrc"; "--help"; "status"]) ["HOME=/root"] =
  Run (Exited 0)
      [ "Mobile Agent C Wrapper (ARM64)" +:+ nl;
        "Prevents .zshrc loading by using execve() directly" +:+ nl;
        "Usage: " +:+ "agent-noshrc" +:+ " <agent-request>" +:+ nl ]
      [] [] /\
  r_stdout (launch (NoShrc.main Ignored exec_ok ["agent-noshrc"; "status"; "--help"]) ["HOME=/root"])
    = [] /\
  r_execs (launch (NoShrc.main Ignored exec_ok ["agent-noshrc"; "status"; "--help"]) ["HOME=/root"])
    = [noshrc_call Ignored ["agent-noshrc"; "status"; "--help"] ["HOME=/root"]] /\
  r_status (launch (NoShrc.main Ignored exec_ok ["agent-noshrc"; "status"; "--help"]) ["HOME=/root"])
    <> Exited 0.
Proof.
  split.
  - apply (help_flag_first_argument_only Ignored exec_ok "agent-noshrc" "--help" ["status"]
             ["HOME=/root"]).
    reflexivity.
  - apply (help_flag_first_argument_only Ignored exec_ok "agent-noshrc" "status" ["--help"]
             ["HOME=/root"]).
    discriminate.
Defined.

(** *** No caller argument *)

(** C6. With nothing after the program name ([argc < 2]), agent-noshell
    writes its usage line to standard error and ends with exit code 1 without
    calling [execv]; agent-noshrc calls [execve] with a vector that holds no
    caller argument: [python, agent, NULL] when the program name is there,
    and [python, NULL] when [argv] is empty altogether. *)
Theorem no_caller_arguments (how : array_assignment) (sys : os) (argv environ : list string) :
  (length argv < 2)%nat ->
  launch (NoShell.main sys argv) environ =
    Run (Exited 1) [] ["Usage: agent-noshell <request>" +:+ nl] [] /\
  exists call,
    r_execs (launch (NoShrc.main how sys argv) environ) = [call] /\
    ex_argv call =
      match argv with
      | [] => [Str "/root/.mobile-agent/.claude_venv/bin/python"; Null]
      | _ :: _ => noshrc_prefix ++ [Null]
      end.
Proof.
  intros Hlen. split; [apply noshell_main_usage; exact Hlen|].
  exists (noshrc_call how argv environ).
  assert (Hhelp : argv !! 1%nat <> Some "--help")
    by (destruct argv as [|prog [|a rest]]; cbn in *; [discriminate | discriminate | lia]).
  rewrite (noshrc_main_exec how sys argv environ Hhelp).
  split; [destruct (os_exec sys _); reflexivity|].
  destruct argv as [|prog [|a rest]]; cbn in Hlen |- *; [reflexivity | reflexivity | lia].
Qed.

Lemma no_caller_arguments_witness :
  launch (NoShell.main enoent ["agent-noshell"]) ["HOME=/root"] =
    Run (Exited 1) [] ["Usage: agent-noshell <request>" +:+ nl] [] /\
  exists call,
    r_execs (launch (NoShrc.main Ignored enoent ["agent-noshrc"]) ["HOME=/root"]) = [call] /\
    ex_argv call = noshrc_prefix ++ [Null].
Proof.
  split.
  - apply (no_caller_arguments Ignored enoent ["agent-noshell"] ["HOME=/root"]). cbn. lia.
  - apply (no_caller_arguments Ignored enoent ["agent-noshrc"] ["HOME=/root"]). cbn. lia.
Defined.

(** *** More arguments than the buffer of [agent-noshell] holds *)

(** C7. With more than 1019 caller arguments, agent-noshell stays inside its
    1024-slot buffer: the copy loop stops at [i = 1020], so the sentinel goes
    to slot 1023; the array comes out with exactly 1024 slots, holding the
    prefix, the first 1019 caller arguments and NULL; no store is out of
    bounds and the run does not crash; [execv] receives that truncated
    vector, and the truncation is silent: nothing is written to standard
    output, and nothing to standard error when [execv] succeeds. *)
Theorem noshell_truncates_within_bounds
    (sys : os) (prog : string) (args environ : list string) :
  (1019 < length args)%nat ->
  (forall buf w, length buf = 1024%nat ->
     exists buf',
       NoShell.copy_args (Z.to_nat (Z.of_nat (length (prog :: args)))) (prog :: args)
         (Z.of_nat (length (prog :: args))) 1 buf w = Done (1020, buf') w /\
       length buf' = 1024%nat) /\
  (forall w,
     NoShell.python_argv (prog :: args) w =
     Done (noshell_prefix ++ map Str (take 1019 args) ++ [Null]) w) /\
  length (noshell_prefix ++ map Str (take 1019 args) ++ [Null]) = 1024%nat /\
  r_execs (launch (NoShell.main sys (prog :: args)) environ) =
    [ExecCall "/usr/bin/python3"
              (noshell_prefix ++ map Str (take 1019 args) ++ [Null])
              (map Str noshell_environ ++ [Null])] /\
  (forall f, r_status (launch (NoShell.main sys (prog :: args)) environ) <> Crashed f) /\
  r_stdout (launch (NoShell.main sys (prog :: args)) environ) = [] /\
  (r_status (launch (NoShell.main sys (prog :: args)) environ) = Execed ->
   r_stderr (launch (NoShell.main sys (prog :: args)) environ) = []).
Proof.
  intros Hlen.
  assert (Htake : length (take 1019 args) = 1019%nat) by (rewrite length_take; lia).
  split; [|split; [|split; [|split; [|split; [|split]]]]].
  - intros buf w Hbuf.
    rewrite (noshell_copy_args_run (prog :: args) 1019 _ 1 buf w)
      by (rewrite ?Nat2Z.id; cbn [length]; lia).
    eexists. split; [reflexivity|].
    rewrite !length_app, length_map, !length_take, !length_drop.
    cbn [length]. lia.
  - intros w. rewrite noshell_python_argv_run, Htake. reflexivity.
  - rewrite !length_app, length_map, Htake. reflexivity.
  - destruct args as [|arg args]; [cbn in Hlen; lia|].
    rewrite noshell_main_exec. destruct (os_exec sys _); reflexivity.
  - intros f. destruct args as [|arg args]; [cbn in Hlen; lia|].
    rewrite noshell_main_exec. destruct (os_exec sys _); discriminate.
  - destruct args as [|arg args]; [cbn in Hlen; lia|].
    rewrite noshell_main_exec. destruct (os_exec sys _); reflexivity.
  - destruct args as [|arg args]; [cbn in Hlen; lia|].
    rewrite noshell_main_exec. destruct (os_exec sys _); [discriminate | reflexivity].
Qed.

Lemma noshell_truncates_within_bounds_witness :
  NoShell.python_argv ("agent-noshell" :: replicate 1021 "x") (start []) =
    Done (noshell_prefix ++ map Str (take 1019 (replicate 1021 "x")) ++ [Null]) (start []) /\
  r_execs (launch (NoShell.main exec_ok ("agent-noshell" :: replicate 1021 "x")) []) =
    [ExecCall "/usr/bin/python3"
              (noshell_prefix ++ map Str (take 1019 (replicate 1021 "x")) ++ [Null])
              (map Str noshell_environ ++ [Null])] /\
  r_stderr (launch (NoShell.main exec_ok ("agent-noshell" :: replicate 1021 "x")) []) = [].
Proof.
  pose proof (noshell_truncates_within_bounds exec_ok "agent-noshell"
                (replicate 1021 "x") []) as H.
  destruct H as (_ & Hbuild & _ & Hcall & _ & _ & Hsilent);
    [rewrite length_replicate; lia|].
  split; [apply Hbuild | split; [exact Hcall|]].
  apply Hsilent. vm_compute. reflexivity.
Defined.

(** *** No capacity in [agent-noshrc] *)

(** C8. agent-noshrc never truncates: for every [argv] with a program name
    ([argc >= 1]) the array of [argc + 2] slots comes out as the 2-entry
    prefix, all [argc - 1] caller arguments in order, and NULL, and every
    [execve] it makes receives exactly that. Truncation belongs to
    agent-noshell alone: past 1019 caller arguments its vector is not the
    full one. *)
Theorem noshrc_never_truncates (how : array_assignment)
    (sys : os) (prog : string) (args environ : list string) :
  (forall w, exists w',
     NoShrc.agent_args (prog :: args) w =
     Done (noshrc_prefix ++ map Str args ++ [Null]) w') /\
  Z.of_nat (length (noshrc_prefix ++ map Str args ++ [Null])) =
    Z.of_nat (length (prog :: args)) + 2 /\
  (forall call,
     In call (r_execs (launch (NoShrc.main how sys (prog :: args)) environ)) ->
     ex_argv call = noshrc_prefix ++ map Str args ++ [Null]) /\
  (args !! 0%nat <> Some "--help" ->
   exists call, r_execs (launch (NoShrc.main how sys (prog :: args)) environ) = [call]) /\
  ((1019 < length args)%nat ->
   exists call,
     r_execs (launch (NoShell.main sys (prog :: args)) environ) = [call] /\
     ex_argv call <> noshell_prefix ++ map Str args ++ [Null]).
Proof.
  split; [|split; [|split; [|split]]].
  - intros w. eexists. apply noshrc_agent_args_run.
  - rewrite !length_app, length_map. cbn [length noshrc_prefix]. lia.
  - intros call Hin. destruct (noshrc_execs _ _ _ _ _ Hin) as (_ & -> & _). reflexivity.
  - intros Hhelp. exists (noshrc_call how (prog :: args) environ).
    rewrite (noshrc_main_exec how sys (prog :: args) environ Hhelp).
    destruct (os_exec sys _); reflexivity.
  - intros Hlen. destruct args as [|arg args]; [cbn in Hlen; lia|].
    exists (noshell_call (arg :: args)). rewrite noshell_main_exec.
    split; [destruct (os_exec sys _); reflexivity|].
    unfold noshell_call. cbn [ex_argv]. intros Heq.
    apply (f_equal length) in Heq.
    rewrite !length_app, !length_map, length_take in Heq. lia.
Qed.

Lemma noshrc_never_truncates_witness :
  ex_argv (noshrc_call Ignored ["agent-noshrc"; "a"; "b"; "c"] []) =
    noshrc_prefix ++ map Str ["a"; "b"; "c"] ++ [Null] /\
  (exists call,
     r_execs (launch (NoShrc.main Ignored exec_ok ["agent-noshrc"; "a"; "b"; "c"]) []) = [call]) /\
  (exists call,
     r_execs (launch (NoShell.main exec_ok ("agent-noshell" :: replicate 1020 "x")) [])
       = [call] /\
     ex_argv call <> noshell_prefix ++ map Str (replicate 1020 "x") ++ [Null]).
Proof.
  split; [|split].
  - apply (noshrc_never_truncates Ignored exec_ok "agent-noshrc" ["a"; "b"; "c"] []).
    vm_compute. left. reflexivity.
  - apply (noshrc_never_truncates Ignored exec_ok "agent-noshrc" ["a"; "b"; "c"] []).
    cbn. discriminate.
  - apply (noshrc_never_truncates Ignored exec_ok "agent-noshell" (replicate 1020 "x") []).
    rewrite length_replicate. lia.
Defined.

(** *** Standard error of [agent-noshrc] *)

(** C10. Off the --help path, agent-noshrc has written to standard error, by
    the time it calls [execve], the start banner, one line per caller
    argument, the debug line when the toggle is on, and the "executing"
    line: 2 + (number of caller arguments) + (0 or 1) writes, none empty.
    When [execve] succeeds that is all of standard error; when it fails the
    [perror] message follows. In either case the stream is not silent. *)
Theorem noshrc_stderr_never_silent (how : array_assignment) (sys : os) (argv environ : list string) :
  argv !! 1%nat <> Some "--help" ->
  (exists after,
     r_stderr (launch (NoShrc.main how sys argv) environ) =
       noshrc_stderr argv environ ++ after /\
     (os_exec sys (noshrc_call how argv environ) = None -> after = [])) /\
  length (noshrc_stderr argv environ) =
    (2 + length (tail argv) + (if debug_on environ then 1 else 0))%nat /\
  Forall (fun line => line <> "") (r_stderr (launch (NoShrc.main how sys argv) environ)) /\
  r_stderr (launch (NoShrc.main how sys argv) environ) <> [].
Proof.
  intros Hhelp.
  assert (Hlines : Forall (fun line : string => line <> "") (noshrc_stderr argv environ)).
  { unfold noshrc_stderr. apply Forall_cons. split; [discriminate|].
    apply Forall_app. split.
    - generalize 1. induction (tail argv) as [|a l IH]; intros i; cbn [arg_lines].
      + constructor.
      + apply Forall_cons. split; [discriminate | apply IH].
    - apply Forall_app. split.
      + unfold debug_lines. destruct (debug_on environ); repeat constructor; discriminate.
      + repeat constructor; discriminate. }
  rewrite (noshrc_main_exec how sys argv environ Hhelp).
  split; [|split; [|split]].
  - destruct (os_exec sys _) as [e|]; cbn [r_stderr].
    + eexists. split; [reflexivity | discriminate].
    + exists []. rewrite app_nil_r. split; reflexivity.
  - unfold noshrc_stderr, debug_lines. cbn [length].
    rewrite !length_app, length_arg_lines.
    destruct (debug_on environ); cbn [length]; lia.
  - destruct (os_exec sys _) as [e|]; cbn [r_stderr]; [|exact Hlines].
    apply Forall_app. split; [exact Hlines|]. repeat constructor; discriminate.
  - destruct (os_exec sys _) as [e|]; cbn [r_stderr]; unfold noshrc_stderr; discriminate.
Qed.

Lemma noshrc_stderr_never_silent_witness :
  r_stderr (launch (NoShrc.main Ignored exec_ok ["agent-noshrc"; "status"]) ["HOME=/root"]) <> [].
Proof.
  apply (noshrc_stderr_never_silent Ignored exec_ok ["agent-noshrc"; "status"] ["HOME=/root"]).
  cbn. discriminate.
Defined.


(** ** Further properties of the two programs *)

Lemma noshrc_help_shape (argv : list string) :
  argv !! 1%nat = Some "--help" ->
  exists prog rest, argv = prog :: "--help" :: rest.
Proof.
  destruct argv as [|prog [|a rest]]; try discriminate.
  intros [= ->]. eauto.
Qed.

(** X1. Neither launcher ever faults, whatever [argv], environment and
    operating system it runs with: no store leaves its array, the kernel is
    never handed a vector with an unwritten slot or without sentinel, and
    the copy loop ends within its budget. *)
Theorem launcher_never_faults (how : array_assignment)
    (v : variant) (sys : os) (argv environ : list string) (f : fault) :
  r_status (launch (main_of how v sys argv) environ) <> Crashed f.
Proof.
  destruct v; cbn [main_of].
  - destruct argv as [|prog [|arg args]].
    + rewrite noshell_main_usage by (cbn; lia). discriminate.
    + rewrite noshell_main_usage by (cbn; lia). discriminate.
    + rewrite noshell_main_exec. destruct (os_exec sys _); discriminate.
  - destruct (decide (argv !! 1%nat = Some "--help")) as [Hh|Hh].
    + destruct (noshrc_help_shape _ Hh) as (prog & rest & ->).
      rewrite noshrc_main_help. discriminate.
    + rewrite (noshrc_main_exec how sys argv environ Hh).
      destruct (os_exec sys _); discriminate.
Qed.

(** X2. agent-noshell never writes to standard output and never ends with
    exit code 0. Either its image is replaced, and then it has written
    nothing at all, or it ends with exit code 1 after exactly one non-empty
    write to standard error. *)
Theorem noshell_quiet_unless_failing (sys : os) (argv environ : list string) :
  r_stdout (launch (NoShell.main sys argv) environ) = [] /\
  ((r_status (launch (NoShell.main sys argv) environ) = Execed /\
    r_stderr (launch (NoShell.main sys argv) environ) = []) \/
   (r_status (launch (NoShell.main sys argv) environ) = Exited 1 /\
    exists line,
      r_stderr (launch (NoShell.main sys argv) environ) = [line] /\ line <> "")).
Proof.
  assert (Husage : forall a,
            (length a < 2)%nat ->
            r_stdout (launch (NoShell.main sys a) environ) = [] /\
            ((r_status (launch (NoShell.main sys a) environ) = Execed /\
              r_stderr (launch (NoShell.main sys a) environ) = []) \/
             (r_status (launch (NoShell.main sys a) environ) = Exited 1 /\
              exists line,
                r_stderr (launch (NoShell.main sys a) environ) = [line] /\ line <> ""))).
  { intros a Ha. rewrite (noshell_main_usage sys a environ Ha).
    split; [reflexivity|]. right. split; [reflexivity|].
    eexists. split; [reflexivity | discriminate]. }
  destruct argv as [|prog [|arg args]]; [apply Husage; cbn; lia .. |].
  rewrite noshell_main_exec. destruct (os_exec sys _) as [e|].
  - split; [reflexivity|]. right. split; [reflexivity|].
    eexists. split; [reflexivity | discriminate].
  - split; [reflexivity|]. left. split; reflexivity.
Qed.

(** X3. In agent-noshrc the --help path and the process replacement exclude
    each other on every input: the run ends with exit code 0 exactly when
    [argv[1]] is --help, exactly then it makes no [execve] call, exactly then
    it writes to standard output, and then standard error stays empty. *)
Theorem noshrc_help_excludes_exec (how : array_assignment) (sys : os) (argv environ : list string) :
  (argv !! 1%nat = Some "--help" <->
   r_status (launch (NoShrc.main how sys argv) environ) = Exited 0) /\
  (argv !! 1%nat = Some "--help" <->
   r_execs (launch (NoShrc.main how sys argv) environ) = []) /\
  (argv !! 1%nat = Some "--help" <->
   r_stdout (launch (NoShrc.main how sys argv) environ) <> []) /\
  (argv !! 1%nat = Some "--help" ->
   r_stderr (launch (NoShrc.main how sys argv) environ) = []).
Proof.
  destruct (decide (argv !! 1%nat = Some "--help")) as [Hh|Hh].
  - destruct (noshrc_help_shape _ Hh) as (prog & rest & ->).
    rewrite noshrc_main_help. cbn [r_status r_execs r_stdout r_stderr].
    repeat split; auto; discriminate.
  - rewrite (noshrc_main_exec how sys argv environ Hh).
    destruct (os_exec sys _); cbn [r_status r_execs r_stdout r_stderr];
      repeat split; intros H; try contradiction; try discriminate;
      exfalso; apply H; reflexivity.
Qed.

(** X4. A run ends by process replacement exactly when it has made one
    process-replacement call and the operating system accepted it; a
    launcher that is still there afterwards has either made no call or seen
    it fail. *)
Theorem replaced_iff_exec_accepted (how : array_assignment)
    (v : variant) (sys : os) (argv environ : list string) :
  r_status (launch (main_of how v sys argv) environ) = Execed <->
  exists call,
    r_execs (launch (main_of how v sys argv) environ) = [call] /\
    os_exec sys call = None.
Proof.
  destruct v; cbn [main_of].
  - destruct argv as [|prog [|arg args]].
    + rewrite noshell_main_usage by (cbn; lia).
      split; [discriminate | intros (c & Hc & _); discriminate].
    + rewrite noshell_main_usage by (cbn; lia).
      split; [discriminate | intros (c & Hc & _); discriminate].
    + rewrite noshell_main_exec.
      destruct (os_exec sys (noshell_call (arg :: args))) as [e|] eqn:He;
        cbn [r_status r_execs].
      * split; [discriminate|]. intros (c & [= <-] & Hc). congruence.
      * split; [|reflexivity]. intros _. eauto.
  - destruct (decide (argv !! 1%nat = Some "--help")) as [Hh|Hh].
    + destruct (noshrc_help_shape _ Hh) as (prog & rest & ->).
      rewrite noshrc_main_help.
      split; [discriminate | intros (c & Hc & _); discriminate].
    + rewrite (noshrc_main_exec how sys argv environ Hh).
      destruct (os_exec sys (noshrc_call how argv environ)) as [e|] eqn:He;
        cbn [r_status r_execs].
      * split; [discriminate|]. intros (c & [= <-] & Hc). congruence.
      * split; [|reflexivity]. intros _. eauto.
Qed.

Lemma noshrc_help_excludes_exec_witness :
  r_status (launch (NoShrc.main Ignored exec_ok ["agent-noshrc"; "--help"]) []) = Exited 0 /\
  r_stderr (launch (NoShrc.main Ignored exec_ok ["agent-noshrc"; "--help"]) []) = [].
Proof.
  pose proof (noshrc_help_excludes_exec Ignored exec_ok ["agent-noshrc"; "--help"] [])
    as (Hstatus & _ & _ & Hquiet).
  split; [apply Hstatus | apply Hquiet]; reflexivity.
Defined.

Lemma replaced_iff_exec_accepted_witness :
  r_status (launch (main_of Ignored AgentNoShell exec_ok ["agent-noshell"; "status"]) []) = Execed.
Proof.
  apply (replaced_iff_exec_accepted Ignored AgentNoShell exec_ok ["agent-noshell"; "status"] []).
  exists (noshell_call ["status"]). split; reflexivity.
Defined.

(** X5. Every process-replacement call names the interpreter by its
    compiled-in absolute path and repeats that path as entry 0 of the
    vector: neither the caller's [argv[0]] nor its PATH takes part. In
    agent-noshell the vector always opens with the path, -E, -s and the
    script; in agent-noshrc it opens with the path and the agent script
    whenever [argv] has a program name. *)
Theorem interpreter_is_compiled_in (how : array_assignment)
    (v : variant) (sys : os) (argv environ : list string) (call : exec_call) :
  In call (r_execs (launch (main_of how v sys argv) environ)) ->
  ex_path call = interpreter v /\
  ex_argv call !! 0%nat = Some (Str (interpreter v)) /\
  match v with
  | AgentNoShell => take 4 (ex_argv call) = noshell_prefix
  | AgentNoShrc => argv <> [] -> take 2 (ex_argv call) = noshrc_prefix
  end.
Proof.
  destruct v; cbn [main_of interpreter]; intros Hin.
  - destruct (noshell_execs _ _ _ _ Hin) as (prog & arg & args & _ & -> & _).
    repeat split.
  - destruct (noshrc_execs _ _ _ _ _ Hin) as (_ & -> & _).
    destruct argv as [|prog args]; repeat split. intros []. reflexivity.
Qed.

Lemma interpreter_is_compiled_in_witness :
  ex_path (noshrc_call Ignored ["./evil/python"; "status"] ["PATH=/tmp/evil"]) =
    interpreter AgentNoShrc /\
  ex_argv (noshrc_call Ignored ["./evil/python"; "status"] ["PATH=/tmp/evil"]) !! 0%nat =
    Some (Str (interpreter AgentNoShrc)) /\
  (["./evil/python"; "status"] <> [] ->
   take 2 (ex_argv (noshrc_call Ignored ["./evil/python"; "status"] ["PATH=/tmp/evil"])) =
   noshrc_prefix).
Proof.
  apply (interpreter_is_compiled_in Ignored AgentNoShrc exec_ok ["./evil/python"; "status"]
           ["PATH=/tmp/evil"]).
  vm_compute. left. reflexivity.
Defined.

(** X6. What agent-noshell does is decided by the first 1019 caller
    arguments alone: two runs under the same operating system whose caller
    arguments agree up to there end alike, write alike and make the same
    call, whatever the program names, the arguments past the 1019th and the
    two inherited environments are. *)
Theorem noshell_run_determined_by_first_1019
    (sys : os) (argv argv' environ environ' : list string) :
  take 1019 (tail argv) = take 1019 (tail argv') ->
  launch (NoShell.main sys argv) environ = launch (NoShell.main sys argv') environ'.
Proof.
  intros Htake.
  destruct argv as [|prog [|arg args]]; destruct argv' as [|prog' [|arg' args']];
    cbn [tail] in Htake; try discriminate Htake;
    rewrite ?noshell_main_usage by (cbn; lia); try reflexivity.
  rewrite !noshell_main_exec. unfold noshell_call. rewrite Htake. reflexivity.
Qed.

Lemma noshell_run_determined_by_first_1019_witness :
  launch (NoShell.main enoent ("agent-noshell" :: replicate 1019 "x" ++ ["kept?"]))
         ["HOME=/root"] =
  launch (NoShell.main enoent ("./other-name" :: replicate 1019 "x" ++ ["no"; "more"]))
         ["LD_PRELOAD=/tmp/x.so"].
Proof.
  apply noshell_run_determined_by_first_1019. vm_compute. reflexivity.
Defined.

Lemma debug_on_true (environ : list string) :
  debug_on environ = true <-> lookup_env debug_toggle environ = Some "1".
Proof.
  unfold debug_on. fold debug_toggle.
  destruct (lookup_env debug_toggle environ) as [value|].
  - rewrite String.eqb_eq. split; [intros -> | intros [= ->]]; reflexivity.
  - split; discriminate.
Qed.

(** X7. The inherited environment reaches agent-noshrc through one bit:
    whether AGENT_DEBUG_SUBPROCESS is exactly 1. Two environments that agree
    on that give the same run for the same [argv] and operating system:
    same streams, same call, same end. *)
Theorem noshrc_run_reads_one_bit (how : array_assignment)
    (sys : os) (argv environ environ' : list string) :
  (lookup_env debug_toggle environ = Some "1" <->
   lookup_env debug_toggle environ' = Some "1") ->
  launch (NoShrc.main how sys argv) environ = launch (NoShrc.main how sys argv) environ'.
Proof.
  intros Hbit.
  assert (Hd : debug_on environ = debug_on environ').
  { rewrite <- !debug_on_true in Hbit.
    destruct (debug_on environ), (debug_on environ'); intuition congruence. }
  destruct (decide (argv !! 1%nat = Some "--help")) as [Hh|Hh].
  - destruct (noshrc_help_shape _ Hh) as (prog & rest & ->).
    rewrite !noshrc_main_help. reflexivity.
  - rewrite !(noshrc_main_exec how sys argv _ Hh).
    unfold noshrc_call, noshrc_stderr, noshrc_envp, debug_lines.
    rewrite Hd. reflexivity.
Qed.

Lemma noshrc_run_reads_one_bit_witness :
  launch (NoShrc.main Ignored enoent ["agent-noshrc"; "status"])
         ["AGENT_DEBUG_SUBPROCESS=0"; "PATH=/tmp/evil"] =
  launch (NoShrc.main Ignored enoent ["agent-noshrc"; "status"])
         ["HOME=/root"; "AGENT_DEBUG_SUBPROCESS=yes"].
Proof.
  apply noshrc_run_reads_one_bit. vm_compute. split; discriminate.
Defined.

(** X8. In agent-noshrc the program name [argv[0]] is used by the --help
    banner only: off the --help path two runs that differ in the program
    name alone are the same run, and the name is not in the vector. *)
Theorem noshrc_program_name_unused (how : array_assignment)
    (sys : os) (prog prog' : string) (args environ : list string) :
  args !! 0%nat <> Some "--help" ->
  launch (NoShrc.main how sys (prog :: args)) environ =
  launch (NoShrc.main how sys (prog' :: args)) environ.
Proof.
  intros Hh.
  rewrite (noshrc_main_exec how sys (prog :: args) environ Hh).
  rewrite (noshrc_main_exec how sys (prog' :: args) environ Hh).
  reflexivity.
Qed.

Lemma noshrc_program_name_unused_witness :
  launch (NoShrc.main Ignored enoent ["agent-noshrc"; "status"]) [] =
  launch (NoShrc.main Ignored enoent ["/tmp/link"; "status"]) [].
Proof.
  apply noshrc_program_name_unused. cbn. discriminate.
Defined.

Lemma map_Str_inj (l l' : list string) : map Str l = map Str l' -> l = l'.
Proof.
  revert l'. induction l as [|a l IH]; intros [|a' l']; cbn; try discriminate.
  - reflexivity.
  - intros [= -> H]. rewrite (IH _ H). reflexivity.
Qed.

(** X9. The vector keeps the caller's arguments apart and whole: two
    argument lists handed the same vector are the same list, element by
    element (so a blank inside an argument never splits it and two
    arguments never merge). This holds for every list in agent-noshrc and
    for lists of at most 1019 arguments in agent-noshell. *)
Theorem caller_arguments_recoverable (how : array_assignment)
    (v : variant) (sys sys' : os) (prog prog' : string)
    (args args' environ environ' : list string) (call call' : exec_call) :
  In call (r_execs (launch (main_of how v sys (prog :: args)) environ)) ->
  In call' (r_execs (launch (main_of how v sys' (prog' :: args')) environ')) ->
  (v = AgentNoShell -> (length args <= 1019)%nat /\ (length args' <= 1019)%nat) ->
  ex_argv call = ex_argv call' ->
  args = args'.
Proof.
  destruct v; cbn [main_of]; intros Hin Hin' Hbound Heq.
  - destruct (Hbound eq_refl) as [Hl Hl'].
    destruct (noshell_execs _ _ _ _ Hin) as (p & a & r & [= <- Hargs] & -> & _).
    destruct (noshell_execs _ _ _ _ Hin') as (p' & a' & r' & [= <- Hargs'] & -> & _).
    subst args args'. unfold noshell_call in Heq. cbn [ex_argv] in Heq.
    rewrite !take_ge in Heq by lia.
    apply app_inv_head in Heq. apply app_inv_tail in Heq.
    apply map_Str_inj. exact Heq.
  - destruct (noshrc_execs _ _ _ _ _ Hin) as (_ & -> & _).
    destruct (noshrc_execs _ _ _ _ _ Hin') as (_ & -> & _).
    cbn [noshrc_call noshrc_vector ex_argv] in Heq.
    apply app_inv_head in Heq. apply app_inv_tail in Heq.
    apply map_Str_inj. exact Heq.
Qed.

Lemma caller_arguments_recoverable_witness :
  ["list my files"; "--fast"] = ["list my files"; "--fast"].
Proof.
  apply (caller_arguments_recoverable Ignored AgentNoShrc enoent exec_ok
           "agent-noshrc" "/tmp/link"
           ["list my files"; "--fast"] ["list my files"; "--fast"]
           ["HOME=/root"] []
           (noshrc_call Ignored ["agent-noshrc"; "list my files"; "--fast"] ["HOME=/root"])
           (noshrc_call Ignored ["/tmp/link"; "list my files"; "--fast"] [])).
  - vm_compute. left. reflexivity.
  - vm_compute. left. reflexivity.
  - discriminate.
  - reflexivity.
Defined.

Lemma arg_lines_lookup (args : list string) :
  forall (i : Z) (k : nat) (a : string),
    args !! k = Some a ->
    arg_lines i args !! k = Some (arg_line (i + Z.of_nat k) a).
Proof.
  induction args as [|b args IH]; intros i k a Hk; [discriminate|].
  destruct k as [|k]; cbn [arg_lines].
  - injection Hk as ->. change (Z.of_nat 0) with 0. rewrite Z.add_0_r. reflexivity.
  - change (args !! k = Some a) in Hk.
    change (arg_lines (i + 1) args !! k = Some (arg_line (i + Z.of_nat (S k)) a)).
    rewrite (IH (i + 1) k a Hk). do 2 f_equal. lia.
Qed.

(** X10. Off the --help path, agent-noshrc logs caller argument number [k]
    as write number [k] of standard error (the start banner being write 0),
    with its position [k] in decimal and the argument itself, unchanged. *)
Theorem noshrc_logs_each_argument (how : array_assignment)
    (sys : os) (argv environ : list string) (k : nat) (a : string) :
  argv !! 1%nat <> Some "--help" ->
  argv !! S k = Some a ->
  r_stderr (launch (NoShrc.main how sys argv) environ) !! S k =
  Some ("🔍 C WRAPPER: Arg " +:+ fmt_d (Z.of_nat (S k)) +:+ ": " +:+ a +:+ nl).
Proof.
  intros Hh Hk.
  assert (Hline : noshrc_stderr argv environ !! S k =
                  Some (arg_line (Z.of_nat (S k)) a)).
  { unfold noshrc_stderr.
    destruct argv as [|prog args]; [discriminate|]. cbn [tail].
    change (args !! k = Some a) in Hk.
    change ((arg_lines 1 args ++ debug_lines environ ++
             ["🔍 C WRAPPER: Executing with clean environment" +:+ nl]) !! k =
            Some (arg_line (Z.of_nat (S k)) a)).
    rewrite lookup_app_l
      by (rewrite length_arg_lines; apply lookup_lt_is_Some; eauto).
    rewrite (arg_lines_lookup args 1 k a Hk). do 2 f_equal. lia. }
  rewrite (noshrc_main_exec how sys argv environ Hh).
  destruct (os_exec sys _); cbn [r_stderr]; [|exact Hline].
  rewrite lookup_app_l by (apply lookup_lt_is_Some; eauto).
  exact Hline.
Qed.

Lemma noshrc_logs_each_argument_witness :
  r_stderr (launch (NoShrc.main Ignored exec_ok ["agent-noshrc"; "status"; "two words"]) [])
    !! 2%nat =
  Some ("🔍 C WRAPPER: Arg " +:+ fmt_d (Z.of_nat 2) +:+ ": " +:+ "two words" +:+ nl).
Proof.
  apply (noshrc_logs_each_argument Ignored exec_ok ["agent-noshrc"; "status"; "two words"] []
           1 "two words").
  - cbn. discriminate.
  - reflexivity.
Defined.

Lemma has_eq_app (name value : string) : has_eq ((name +:+ "=") +:+ value) = true.
Proof.
  induction name as [|a name IH]; simpl; [reflexivity|].
  rewrite IH. apply orb_true_r.
Qed.

(** An entry [getenv] accepts for [name] either bears that name or has a
    second [=] after its first. *)
Lemma strip_prefix_key (name : string) :
  forall e v,
    strip_prefix (name +:+ "=") e = Some v ->
    key_of e = name \/ has_eq (after_key e) = true.
Proof.
  induction name as [|a name IH]; intros e v.
  - change ("" +:+ "=") with "=".
    destruct e as [|b e]; cbn [strip_prefix key_of after_key]; [discriminate|].
    destruct (Ascii.eqb "=" b) eqn:Hb; [|discriminate].
    apply Ascii.eqb_eq in Hb as <-. intros _. left. reflexivity.
  - change (String a name +:+ "=") with (String a (name +:+ "=")).
    destruct e as [|b e]; cbn [strip_prefix key_of after_key]; [discriminate|].
    destruct (Ascii.eqb a b) eqn:Hab; [|discriminate].
    apply Ascii.eqb_eq in Hab as <-. intros Hv.
    destruct (Ascii.eqb a "=") eqn:Ha.
    + right. rewrite (strip_prefix_Some _ _ _ Hv). apply has_eq_app.
    + destruct (IH e v Hv) as [<- | Hr]; [left; reflexivity | right; exact Hr].
Qed.

Lemma lookup_env_In (name : string) (environ : list string) (value : string) :
  lookup_env name environ = Some value ->
  exists e, In e environ /\ strip_prefix (name +:+ "=") e = Some value.
Proof.
  induction environ as [|e rest IH]; cbn [lookup_env]; [discriminate|].
  destruct (strip_prefix (name +:+ "=") e) as [v|] eqn:Hv.
  - intros [= ->]. exists e. split; [left; reflexivity | exact Hv].
  - intros H. destruct (IH H) as (e' & He' & Hs). exists e'. split; [right|]; assumption.
Qed.

(** X12. What [getenv] finds in the new image: the five allow-listed
    variables have their compiled-in values, whatever the caller's
    environment gave them, and a name that resolves at all is one of the
    allowed ones, so LD_PRELOAD, HOME, PYTHONSTARTUP and the like are unset
    for the interpreter. *)
Theorem interpreter_environment_lookup (how : array_assignment)
    (v : variant) (sys : os) (argv environ : list string) (call : exec_call) :
  In call (r_execs (launch (main_of how v sys argv) environ)) ->
  lookup_env "PATH" (env_strings (ex_envp call)) =
    Some (match v with
          | AgentNoShell => "/usr/bin:/bin:/usr/local/bin"
          | AgentNoShrc => "/usr/bin:/bin:/usr/local/bin:/sbin:/usr/sbin"
          end) /\
  lookup_env "PYTHONPATH" (env_strings (ex_envp call)) =
    Some (match v with
          | AgentNoShell => "/root/Tools/Mobile-Agent"
          | AgentNoShrc => "/root/.mobile-agent"
          end) /\
  lookup_env "PYTHONIOENCODING" (env_strings (ex_envp call)) = Some "utf-8" /\
  lookup_env "PYTHONNOUSERSITE" (env_strings (ex_envp call)) = Some "1" /\
  lookup_env "PYTHONDONTWRITEBYTECODE" (env_strings (ex_envp call)) = Some "1" /\
  (forall name value,
     lookup_env name (env_strings (ex_envp call)) = Some value ->
     In name (allowed_keys v)).
Proof.
  intros Hin. rewrite (exec_envp _ _ _ _ _ _ Hin).
  assert (Hkeys : forall entries name value,
            Forall (fun e => has_eq (after_key e) = false) entries ->
            lookup_env name entries = Some value ->
            In name (map key_of entries)).
  { intros entries name value Hwf Hv.
    destruct (lookup_env_In _ _ _ Hv) as (e & He & Hs).
    destruct (strip_prefix_key _ _ _ Hs) as [<- | Hr].
    - apply in_map. exact He.
    - rewrite Forall_forall in Hwf.
      rewrite (Hwf e) in Hr; [discriminate|].
      apply list_elem_of_In. exact He. }
  destruct v.
  - do 5 (split; [reflexivity|]).
    intros name value Hv.
    change (env_strings (map Str noshell_environ ++ [Null])) with noshell_environ in Hv.
    apply Hkeys in Hv; [|repeat constructor].
    cbv in Hv |- *. intuition auto.
  - unfold noshrc_envp.
    destruct (debug_on environ); [destruct how|]; cbn [assign_array];
      (do 5 (split; [reflexivity|]));
      intros name value Hv.
    + change (env_strings NoShrc.clean_env_init)
        with [ "PATH=/usr/bin:/bin:/usr/local/bin:/sbin:/usr/sbin";
               "PYTHONPATH=/root/.mobile-agent"; "PYTHONIOENCODING=utf-8";
               "PYTHONNOUSERSITE=1"; "PYTHONDONTWRITEBYTECODE=1" ] in Hv.
      apply Hkeys in Hv; [|repeat constructor].
      cbv in Hv |- *. intuition auto.
    + change (env_strings NoShrc.clean_env_debug)
        with [ "PATH=/usr/bin:/bin:/usr/local/bin:/sbin:/usr/sbin";
               "PYTHONPATH=/root/.mobile-agent"; "PYTHONIOENCODING=utf-8";
               "PYTHONNOUSERSITE=1"; "PYTHONDONTWRITEBYTECODE=1";
               "AGENT_DEBUG_SUBPROCESS=1" ] in Hv.
      apply Hkeys in Hv; [|repeat constructor].
      cbv in Hv |- *. intuition auto.
    + change (env_strings NoShrc.clean_env_init)
        with [ "PATH=/usr/bin:/bin:/usr/local/bin:/sbin:/usr/sbin";
               "PYTHONPATH=/root/.mobile-agent"; "PYTHONIOENCODING=utf-8";
               "PYTHONNOUSERSITE=1"; "PYTHONDONTWRITEBYTECODE=1" ] in Hv.
      apply Hkeys in Hv; [|repeat constructor].
      cbv in Hv |- *. intuition auto.
Qed.

Lemma interpreter_environment_lookup_witness :
  lookup_env "PATH"
    (env_strings (ex_envp (noshell_call ["status"]))) =
    Some "/usr/bin:/bin:/usr/local/bin" /\
  (lookup_env "LD_PRELOAD" (env_strings (ex_envp (noshell_call ["status"]))) =
     Some "/tmp/x.so" ->
   In "LD_PRELOAD" (allowed_keys AgentNoShell)).
Proof.
  pose proof (interpreter_environment_lookup Ignored AgentNoShell exec_ok
                ["agent-noshell"; "status"] ["PATH=/tmp/evil"; "LD_PRELOAD=/tmp/x.so"]
                (noshell_call ["status"])) as H.
  destruct H as (Hpath & _ & _ & _ & _ & Hother); [vm_compute; left; reflexivity|].
  split; [exact Hpath | apply Hother].
Defined.

(** X13. The copy loop of agent-noshell, run on any array of 1024 slots,
    ends with [i] equal to the smaller of [argc] and 1020 (and 1 when there
    is no caller argument), has put [argv[j]] into slot [j + 3] for every
    [1 <= j < i], and has left every other slot as it was: the four prefix
    slots below and everything from slot [i + 3] on. It writes nothing to
    the streams. *)
Theorem noshell_copy_loop_frame (argv : list string) (buf : list cptr) (w : world) :
  length buf = 1024%nat ->
  exists (i : nat) (buf' : list cptr),
    NoShell.copy_args (Z.to_nat (Z.of_nat (length argv))) argv
      (Z.of_nat (length argv)) 1 buf w = Done (Z.of_nat i, buf') w /\
    i = Nat.max 1 (Nat.min (length argv) 1020) /\
    length buf' = 1024%nat /\
    (forall j, (j < 4 \/ i + 3 <= j)%nat -> buf' !! j = buf !! j) /\
    (forall j a, (1 <= j < i)%nat -> argv !! j = Some a ->
                 buf' !! (j + 3)%nat = Some (Str a)).
Proof.
  intros Hlen. destruct argv as [|prog args].
  - exists 1%nat, buf. rewrite noshell_copy_args_eq. cbn.
    repeat split; try assumption; try reflexivity. intros j a Hj. lia.
  - set (argv := prog :: args).
    set (k := (Nat.min (length argv) 1020 - 1)%nat).
    assert (Hargv : (1 <= length argv)%nat) by (unfold argv; cbn [length]; lia).
    assert (Hn : (1 + k = Nat.min (length argv) 1020)%nat) by (unfold k; lia).
    assert (Hfuel : (k <= Z.to_nat (Z.of_nat (length argv)))%nat)
      by (rewrite Nat2Z.id; unfold k; lia).
    exists (1 + k)%nat. eexists.
    split; [exact (noshell_copy_args_run argv k _ 1 buf w Hn Hfuel Hlen)|].
    assert (Hmid : length (map Str (take k (drop 1 argv))) = k)
      by (rewrite length_map, length_take, length_drop; unfold k; lia).
    assert (Hpre : length (take (1 + 3) buf) = 4%nat) by (rewrite length_take; lia).
    split; [lia|]. split; [|split].
    + rewrite !length_app, Hmid, Hpre, length_drop. lia.
    + intros j [Hj | Hj].
      * rewrite lookup_app_l by lia. apply lookup_take_lt. lia.
      * rewrite lookup_app_r by lia. rewrite lookup_app_r by lia.
        rewrite lookup_drop, Hmid, Hpre. f_equal. lia.
    + intros j a Hj Ha.
      rewrite lookup_app_r by lia. rewrite lookup_app_l by lia.
      rewrite Hpre, list_lookup_fmap, lookup_take_lt by lia.
      rewrite lookup_drop.
      replace (1 + (j + 3 - 4))%nat with j by lia.
      rewrite Ha. reflexivity.
Qed.

Lemma noshell_copy_loop_frame_witness :
  exists (i : nat) (buf' : list cptr),
    NoShell.copy_args (Z.to_nat (Z.of_nat 3)) ["agent-noshell"; "a"; "b"]
      (Z.of_nat 3) 1 (alloca 1024) (start []) = Done (Z.of_nat i, buf') (start []) /\
    i = Nat.max 1 (Nat.min 3 1020) /\
    length buf' = 1024%nat /\
    (forall j, (j < 4 \/ i + 3 <= j)%nat -> buf' !! j = alloca 1024 !! j) /\
    (forall j a, (1 <= j < i)%nat -> ["agent-noshell"; "a"; "b"] !! j = Some a ->
                 buf' !! (j + 3)%nat = Some (Str a)).
Proof.
  apply (noshell_copy_loop_frame ["agent-noshell"; "a"; "b"] (alloca 1024) (start [])).
  reflexivity.
Defined.

(** X14. The copy loop of agent-noshrc, run on any array of [argc + 2]
    slots with [argc >= 1], puts [argv[j]] into slot [j + 1] for every
    [1 <= j < argc], leaves slots 0 and 1 and the last slot as they were,
    and appends to standard error exactly one line per caller argument. *)
Theorem noshrc_copy_loop_frame
    (prog : string) (args : list string) (buf : list cptr) (w : world) :
  length buf = (length (prog :: args) + 2)%nat ->
  exists buf',
    NoShrc.copy_args (Z.to_nat (Z.of_nat (length (prog :: args)))) (prog :: args)
      (Z.of_nat (length (prog :: args))) 1 buf w =
    Done buf' (with_stderr w (arg_lines 1 args)) /\
    length buf' = length buf /\
    length (arg_lines 1 args) = length args /\
    (forall j, (j < 2 \/ length (prog :: args) + 1 <= j)%nat -> buf' !! j = buf !! j) /\
    (forall j a, (1 <= j)%nat -> (prog :: args) !! j = Some a ->
                 buf' !! (j + 1)%nat = Some (Str a)).
Proof.
  intros Hlen. set (argv := prog :: args) in *.
  assert (Hn : (1 + length args = length argv)%nat) by reflexivity.
  assert (Hfuel : (length args <= Z.to_nat (Z.of_nat (length argv)))%nat)
    by (rewrite Nat2Z.id; unfold argv; cbn [length]; lia).
  eexists.
  split; [exact (noshrc_copy_args_run argv (length args) _ 1 buf w Hn Hfuel Hlen)|].
  change (drop 1 argv) with (drop 0 args). rewrite drop_0.
  assert (Hpre : length (take (1 + 1) buf) = 2%nat) by (rewrite length_take; lia).
  split; [|split; [|split]].
  - rewrite !length_app, length_map, Hpre, length_drop. lia.
  - apply length_arg_lines.
  - intros j [Hj | Hj].
    + rewrite lookup_app_l by lia. apply lookup_take_lt. lia.
    + rewrite lookup_app_r by lia.
      rewrite lookup_app_r by (rewrite length_map; lia).
      rewrite lookup_drop, length_map, Hpre. f_equal. lia.
  - intros j a Hj Ha.
    assert (Hjlt : (j < length argv)%nat) by (apply lookup_lt_is_Some; eauto).
    rewrite lookup_app_r by lia.
    rewrite lookup_app_l by (rewrite length_map; lia).
    rewrite Hpre, list_lookup_fmap.
    destruct j as [|j]; [lia|].
    change (args !! j = Some a) in Ha.
    replace (S j + 1 - 2)%nat with j by lia.
    rewrite Ha. reflexivity.
Qed.

Lemma noshrc_copy_loop_frame_witness :
  exists buf',
    NoShrc.copy_args (Z.to_nat (Z.of_nat 3)) ["agent-noshrc"; "a"; "b"]
      (Z.of_nat 3) 1 (alloca 5) (start []) =
    Done buf' (with_stderr (start []) (arg_lines 1 ["a"; "b"])) /\
    length buf' = length (alloca 5) /\
    length (arg_lines 1 ["a"; "b"]) = 2%nat /\
    (forall j, (j < 2 \/ 3 + 1 <= j)%nat -> buf' !! j = alloca 5 !! j) /\
    (forall j a, (1 <= j)%nat -> ["agent-noshrc"; "a"; "b"] !! j = Some a ->
                 buf' !! (j + 1)%nat = Some (Str a)).
Proof.
  apply (noshrc_copy_loop_frame "agent-noshrc" ["a"; "b"] (alloca 5) (start [])).
  reflexivity.
Defined.
